(** * RANS environments of Isaac Lab: a shallow embedding

    The development models the thin glue layer of the RANS (Robot-Agnostic
    task/Navigation System) extension: the two direct RL environments
    [FloatingPlatformGoThroughPosesEnv] and [LeatherbackPushBlockEnv], the
    configuration classes they are built from, the task-configuration
    registry and the names the [rans] package exports.

    The robot and task abstractions, the articulation and the simulator are
    objects the environments only call into.  They live in one shared store
    [W]; every method is a transformer of that store, and every call an
    environment makes is recorded, in order, in the environment's call log. *)

From Stdlib Require Import ZArith Sorted.
From Corelib Require Import PrimFloat.
From stdpp Require Import gmap strings list fin_maps pretty.

Set Warnings "-inexact-float,-register-all".

Local Open Scope Z_scope.

(** ** Tensors *)

(** A one-dimensional torch tensor of shape [(n,)] is the list of its [n]
    entries; a two-dimensional one is a list of rows. *)
Abbreviation tensor A := (list A) (only parsing).
Abbreviation tensor2 A := (list (list A)) (only parsing).

(** [a | b] on boolean tensors of shapes [(n,)] and [(m,)].  Torch
    broadcasts a dimension of size 1 and raises on any other mismatch. *)
Definition tensor_or (a b : tensor bool) : option (tensor bool) :=
  if decide (length a = length b) then Some (zip_with orb a b)
  else match a, b with
       | [x], _ => Some (orb x <$> b)
       | _, [y] => Some ((λ x, orb x y) <$> a)
       | _, _ => None
       end.

(** The entries of an int64 tensor are 64-bit integers in two's
    complement: arithmetic on them wraps around. *)
Definition int64 (z : Z) : Z := (z + 2 ^ 63) `mod` 2 ^ 64 - 2 ^ 63.

(** [t >= k] for an int64 tensor [t] and a Python int [k].  Torch turns
    [k] into a 64-bit scalar before it compares: a [k] from [2^63] to
    [2^64 - 1] is read as [k - 2^64], and a [k] that does not fit in 64
    bits raises. *)
Definition tensor_ge (t : tensor Z) (k : Z) : option (tensor bool) :=
  if decide (- 2 ^ 63 ≤ k < 2 ^ 63) then Some ((λ x, x >=? k) <$> t)
  else if decide (2 ^ 63 ≤ k < 2 ^ 64) then Some ((λ x, x >=? k - 2 ^ 64) <$> t)
  else None.

(** [t + k] for an int64 tensor [t] and a small Python int [k]. *)
Definition tensor_add (t : tensor Z) (k : Z) : tensor Z :=
  (λ x, int64 (x + k)) <$> t.

(** [t.nonzero().squeeze(-1)]: the indices of the set flags. *)
Fixpoint nonzero_from (i : nat) (t : tensor bool) : list nat :=
  match t with
  | [] => []
  | b :: t' => if b then i :: nonzero_from (S i) t' else nonzero_from (S i) t'
  end.

Definition nonzero (t : tensor bool) : list nat := nonzero_from 0 t.

(** ** Python dictionaries *)

(** [d.update(other)]: the keys of [other] win. *)
Definition dict_update {V} (d other : gmap string V) : gmap string V := other ∪ d.

(** ** The calls an environment makes *)

Inductive call : Type :=
  | robot_process_actions (actions : tensor2 float)
  | robot_apply_actions
  | robot_get_dones
  | robot_reset_logs (env_ids : list nat) (episode_length_buf : tensor Z)
  | robot_compute_logs
  | task_get_observations
  | task_compute_rewards
  | task_get_dones
  | task_reset_logs (env_ids : list nat) (episode_length_buf : tensor Z)
  | task_compute_logs
  | task_reset (env_ids : list nat)
  | task_create_task_visualization
  | task_update_task_visualization
  | super_reset_idx (env_ids : list nat)
  | scene_write_data_to_sim
  | sim_step
  | sim_render
  | scene_update
  | scene_render
  | event_manager_apply
  | add_noise.

(** ** The abstractions the environments are composed from

    [FloatingPlatformRobot], [LeatherbackRobot], [GoThroughPosesTask],
    [PushBlockTask] and [DirectRLEnv] are used through their methods only;
    an instance of the classes below fixes what the methods do to the
    shared store. *)

Module robot_api.
Class API (W : Type) := {
  process_actions : tensor2 float → W → W;
  apply_actions : W → W;
  get_dones : W → (tensor bool * tensor bool) * W;
  reset_logs : list nat → tensor Z → W → W;
  compute_logs : W → gmap string float * W;
}.
End robot_api.

Module task_api.
Class API (W : Type) := {
  get_observations : W → tensor2 float * W;
  compute_rewards : W → tensor float * W;
  get_dones : W → (tensor bool * tensor bool) * W;
  reset_logs : list nat → tensor Z → W → W;
  compute_logs : W → gmap string float * W;
  reset : list nat → W → W;
  create_task_visualization : W → W;
  update_task_visualization : W → W;
}.
End task_api.

(** The host: the base class [DirectRLEnv] and the simulation objects it
    owns.  [_reset_idx] is the base-class reset reached through [super()]:
    it works on the scene and on the episode-length buffer. *)
Module host.
Class API (W : Type) := {
  _reset_idx : list nat → tensor Z * W → tensor Z * W;
  write_data_to_sim : W → W;
  step_physics : W → W;
  rendering_required : W → bool;
  render : W → W;
  update : W → W;
  has_rtx_sensors : W → bool;
  render_scene : W → W;
  has_events : W → bool;
  apply_events : W → W;
  noise_required : W → bool;
  _add_noise : gmap string (tensor2 float) → W → gmap string (tensor2 float) * W;
}.
End host.

(** ** Environment state *)

Record Env (W : Type) := mkEnv {
  cfg_debug_vis : bool;                       (* self.cfg.debug_vis *)
  cfg_decimation : nat;                       (* self.cfg.decimation *)
  num_envs : nat;                             (* self.num_envs *)
  max_episode_length : Z;                     (* self.max_episode_length *)
  episode_length_buf : tensor Z;              (* self.episode_length_buf *)
  robot__ALL_INDICES : list nat;              (* self.robot._ALL_INDICES *)
  extras : gmap string (gmap string float);   (* self.extras *)
  world : W;                                  (* robot_api, task_api, robot, scene, sim *)
  calls : list call;                          (* the call log *)
}.

Arguments mkEnv {W}.
Arguments cfg_debug_vis {W}.
Arguments cfg_decimation {W}.
Arguments num_envs {W}.
Arguments max_episode_length {W}.
Arguments episode_length_buf {W}.
Arguments robot__ALL_INDICES {W}.
Arguments extras {W}.
Arguments world {W}.
Arguments calls {W}.

(** ** Methods as state transformers that may raise *)

Definition M (W A : Type) : Type := Env W → option (A * Env W).

#[global] Instance M_ret {W} : MRet (M W) := λ A a s, Some (a, s).

#[global] Instance M_bind {W} : MBind (M W) := λ A B f m s,
  match m s with
  | Some (a, s') => f a s'
  | None => None
  end.

Definition raise {W A} : M W A := λ _, None.

Definition lift_option {W A} (o : option A) : M W A :=
  match o with
  | Some a => mret a
  | None => raise
  end.

Definition gets {W A} (f : Env W → A) : M W A := λ s, Some (f s, s).

(** A call into one of the abstractions: it transforms the store and is
    appended to the call log. *)
Definition invoke {W A} (c : call) (f : W → A * W) : M W A := λ s,
  let '(a, w) := f (world s) in
  Some (a, mkEnv (cfg_debug_vis s) (cfg_decimation s) (num_envs s)
            (max_episode_length s) (episode_length_buf s)
            (robot__ALL_INDICES s) (extras s) w (calls s ++ [c])).

Definition invoke_ {W} (c : call) (f : W → W) : M W () :=
  invoke c (λ w, ((), f w)).

Definition set_extras {W} (key : string) (d : gmap string float) : M W () := λ s,
  Some ((), mkEnv (cfg_debug_vis s) (cfg_decimation s) (num_envs s)
           (max_episode_length s) (episode_length_buf s)
           (robot__ALL_INDICES s) (<[key := d]> (extras s)) (world s) (calls s)).

(** [self.episode_length_buf += k] *)
Definition add_episode_length_buf {W} (k : Z) : M W () := λ s,
  Some ((), mkEnv (cfg_debug_vis s) (cfg_decimation s) (num_envs s)
           (max_episode_length s) (tensor_add (episode_length_buf s) k)
           (robot__ALL_INDICES s) (extras s) (world s) (calls s)).

(** [super()._reset_idx(env_ids)] *)
Definition super__reset_idx {W} `{!host.API W} (env_ids : list nat) : M W () := λ s,
  let '(buf, w) := host._reset_idx env_ids (episode_length_buf s, world s) in
  Some ((), mkEnv (cfg_debug_vis s) (cfg_decimation s) (num_envs s)
           (max_episode_length s) buf
           (robot__ALL_INDICES s) (extras s) w (calls s ++ [super_reset_idx env_ids])).

(** The test that opens both [_reset_idx] methods:
    [if (env_ids is None) or (len(env_ids) == self.num_envs): env_ids = self.robot._ALL_INDICES] *)
Definition resolve_env_ids {W} (env_ids : option (list nat)) : M W (list nat) := λ s,
  match env_ids with
  | None => Some (robot__ALL_INDICES s, s)
  | Some ids =>
      if decide (length ids = num_envs s) then Some (robot__ALL_INDICES s, s)
      else Some (ids, s)
  end.

(** ** floating_platform_go_through_poses.py *)

Module FloatingPlatformGoThroughPosesEnv.
Section Env.
Context {W : Type} `{!robot_api.API W, !task_api.API W, !host.API W}.

Definition _pre_physics_step (actions : tensor2 float) : M W () :=
  invoke_ (robot_process_actions actions) (robot_api.process_actions actions).

(** [self.robot_api.apply_actions(self.robot)]: the articulation passed in
    is part of the shared store. *)
Definition _apply_action : M W () :=
  invoke_ robot_apply_actions robot_api.apply_actions.

Definition _get_observations : M W (gmap string (tensor2 float)) :=
  task_obs ← invoke task_get_observations task_api.get_observations;
  mret {[ "policy" := task_obs ]}.

Definition _get_rewards : M W (tensor float) :=
  invoke task_compute_rewards task_api.compute_rewards.

Definition _get_dones : M W (tensor bool * tensor bool) :=
  '(robot_early_termination, robot_clean_termination) ←
     invoke robot_get_dones robot_api.get_dones;
  '(task_early_termination, task_clean_termination) ←
     invoke task_get_dones task_api.get_dones;
  buf ← gets episode_length_buf;
  max_len ← gets max_episode_length;
  time_out ← lift_option (tensor_ge buf (max_len - 1));
  early_termination ← lift_option (tensor_or robot_early_termination task_early_termination);
  clean ← lift_option (tensor_or robot_clean_termination task_clean_termination);
  clean_termination ← lift_option (tensor_or clean time_out);
  mret (early_termination, clean_termination).

Definition _reset_idx (env_ids : option (list nat)) : M W () :=
  env_ids ← resolve_env_ids env_ids;
  super__reset_idx env_ids;;
  invoke_ (task_reset env_ids) (task_api.reset env_ids).

Definition _set_debug_vis_impl (debug_vis : bool) : M W () :=
  if debug_vis
  then invoke_ task_create_task_visualization task_api.create_task_visualization
  else mret ().

Definition _debug_vis_callback : M W () :=
  debug_vis ← gets cfg_debug_vis;
  if debug_vis : bool
  then invoke_ task_update_task_visualization task_api.update_task_visualization
  else (mret () : M W ()).
End Env.
End FloatingPlatformGoThroughPosesEnv.

(** ** leatherback_push_block.py *)

Module LeatherbackPushBlockEnv.
Section Env.
Context {W : Type} `{!robot_api.API W, !task_api.API W, !host.API W}.

Definition _pre_physics_step (actions : tensor2 float) : M W () :=
  invoke_ (robot_process_actions actions) (robot_api.process_actions actions).

Definition _apply_action : M W () :=
  invoke_ robot_apply_actions robot_api.apply_actions.

Definition _get_observations : M W (gmap string (tensor2 float)) :=
  task_obs ← invoke task_get_observations task_api.get_observations;
  mret {[ "policy" := task_obs ]}.

Definition _get_rewards : M W (tensor float) :=
  invoke task_compute_rewards task_api.compute_rewards.

Definition _get_dones : M W (tensor bool * tensor bool) :=
  '(robot_early_termination, robot_clean_termination) ←
     invoke robot_get_dones robot_api.get_dones;
  '(task_early_termination, task_clean_termination) ←
     invoke task_get_dones task_api.get_dones;
  buf ← gets episode_length_buf;
  max_len ← gets max_episode_length;
  time_out ← lift_option (tensor_ge buf (max_len - 1));
  early_termination ← lift_option (tensor_or robot_early_termination task_early_termination);
  clean ← lift_option (tensor_or robot_clean_termination task_clean_termination);
  clean_termination ← lift_option (tensor_or clean time_out);
  mret (early_termination, clean_termination).

Definition _reset_idx (env_ids : option (list nat)) : M W () :=
  env_ids ← resolve_env_ids env_ids;
  (* Logging *)
  buf ← gets episode_length_buf;
  invoke_ (task_reset_logs env_ids buf) (task_api.reset_logs env_ids buf);;
  task_extras ← invoke task_compute_logs task_api.compute_logs;
  buf ← gets episode_length_buf;
  invoke_ (robot_reset_logs env_ids buf) (robot_api.reset_logs env_ids buf);;
  robot_extras ← invoke robot_compute_logs robot_api.compute_logs;
  set_extras "log" (dict_update (dict_update (∅ : gmap string float) task_extras) robot_extras);;
  super__reset_idx env_ids;;
  invoke_ (task_reset env_ids) (task_api.reset env_ids).

Definition _set_debug_vis_impl (debug_vis : bool) : M W () :=
  if debug_vis
  then invoke_ task_create_task_visualization task_api.create_task_visualization
  else mret ().

Definition _debug_vis_callback : M W () :=
  debug_vis ← gets cfg_debug_vis;
  if debug_vis : bool
  then invoke_ task_update_task_visualization task_api.update_task_visualization
  else (mret () : M W ()).
End Env.
End LeatherbackPushBlockEnv.

(** ** The externally-owned step loop *)

Module DirectRLEnv.
Section Step.
Context {W : Type} `{!host.API W}.

(** The methods a direct environment overrides. *)
Record subclass := {
  _pre_physics_step : tensor2 float → M W ();
  _apply_action : M W ();
  _get_dones : M W (tensor bool * tensor bool);
  _get_rewards : M W (tensor float);
  _reset_idx : option (list nat) → M W ();
  _get_observations : M W (gmap string (tensor2 float));
  _set_debug_vis_impl : bool → M W ();
  _debug_vis_callback : M W ();
}.

Definition when (b : bool) (m : M W ()) : M W () :=
  if b then m else mret ().

(** Modelled from the spec: [DirectRLEnv.step] is not among the sources.
    The loop body follows the [Workflow: Step] comment of both
    environment classes, "(Loop over N skipped steps)": apply the
    actions, write the data to the simulator, step physics, render when
    required, update the scene. *)
Fixpoint physics_loop (self : subclass) (n : nat) : M W () :=
  match n with
  | O => mret ()
  | S n' =>
      _apply_action self;;
      invoke_ scene_write_data_to_sim host.write_data_to_sim;;
      invoke_ sim_step host.step_physics;;
      rendering ← gets (λ s, host.rendering_required (world s));
      when rendering (invoke_ sim_render host.render);;
      invoke_ scene_update host.update;;
      physics_loop self n'
  end.

(** Modelled from the spec: [DirectRLEnv.step] is not among the sources.
    The sequence follows the [Workflow: Step] comment of both environment
    classes and the spec's "the host steps physics, then queries
    RobotAbstraction and TaskAbstraction for
    actions/observations/rewards/dones"; a reset is required for the
    indices whose early- or clean-termination flag is set.  The comment
    does not list the counters of the base class; the one the
    environments read, [episode_length_buf], counts the step once the
    physics loop is over, before [_get_dones] compares it with
    [max_episode_length - 1]. *)
Definition step (self : subclass) (actions : tensor2 float)
  : M W (gmap string (tensor2 float) * tensor float * tensor bool * tensor bool
         * gmap string (gmap string float)) :=
  _pre_physics_step self actions;;
  decimation ← gets cfg_decimation;
  physics_loop self decimation;;
  add_episode_length_buf 1;;
  '(terminated, time_outs) ← _get_dones self;
  reward ← _get_rewards self;
  reset_buf ← lift_option (tensor_or terminated time_outs);
  let reset_env_ids := nonzero reset_buf in
  when (bool_decide (0 < length reset_env_ids)%nat)
    (_reset_idx self (Some reset_env_ids);;
     rtx ← gets (λ s, host.has_rtx_sensors (world s));
     when rtx (invoke_ scene_render host.render_scene));;
  events ← gets (λ s, host.has_events (world s));
  when events (invoke_ event_manager_apply host.apply_events);;
  obs ← _get_observations self;
  noise ← gets (λ s, host.noise_required (world s));
  obs ← (if noise : bool then invoke add_noise (host._add_noise obs) else mret obs);
  extras ← gets extras;
  mret (obs, reward, terminated, time_outs, extras).
End Step.
Arguments subclass W : clear implicits.
End DirectRLEnv.

(** The two environment classes as subclasses of [DirectRLEnv]. *)
Definition FloatingPlatformGoThroughPosesEnv_class {W : Type}
    `{!robot_api.API W, !task_api.API W, !host.API W} : DirectRLEnv.subclass W :=
  {| DirectRLEnv._pre_physics_step := FloatingPlatformGoThroughPosesEnv._pre_physics_step;
     DirectRLEnv._apply_action := FloatingPlatformGoThroughPosesEnv._apply_action;
     DirectRLEnv._get_dones := FloatingPlatformGoThroughPosesEnv._get_dones;
     DirectRLEnv._get_rewards := FloatingPlatformGoThroughPosesEnv._get_rewards;
     DirectRLEnv._reset_idx := FloatingPlatformGoThroughPosesEnv._reset_idx;
     DirectRLEnv._get_observations := FloatingPlatformGoThroughPosesEnv._get_observations;
     DirectRLEnv._set_debug_vis_impl := FloatingPlatformGoThroughPosesEnv._set_debug_vis_impl;
     DirectRLEnv._debug_vis_callback := FloatingPlatformGoThroughPosesEnv._debug_vis_callback |}.

Definition LeatherbackPushBlockEnv_class {W : Type}
    `{!robot_api.API W, !task_api.API W, !host.API W} : DirectRLEnv.subclass W :=
  {| DirectRLEnv._pre_physics_step := LeatherbackPushBlockEnv._pre_physics_step;
     DirectRLEnv._apply_action := LeatherbackPushBlockEnv._apply_action;
     DirectRLEnv._get_dones := LeatherbackPushBlockEnv._get_dones;
     DirectRLEnv._get_rewards := LeatherbackPushBlockEnv._get_rewards;
     DirectRLEnv._reset_idx := LeatherbackPushBlockEnv._reset_idx;
     DirectRLEnv._get_observations := LeatherbackPushBlockEnv._get_observations;
     DirectRLEnv._set_debug_vis_impl := LeatherbackPushBlockEnv._set_debug_vis_impl;
     DirectRLEnv._debug_vis_callback := LeatherbackPushBlockEnv._debug_vis_callback |}.

(** ** Vocabulary for statements about the call log *)

Definition is_process_actions (c : call) : bool :=
  match c with robot_process_actions _ => true | _ => false end.

Definition is_apply_actions (c : call) : bool :=
  match c with robot_apply_actions => true | _ => false end.

Definition is_sim_step (c : call) : bool :=
  match c with sim_step => true | _ => false end.

Definition is_get_dones (c : call) : bool :=
  match c with robot_get_dones | task_get_dones => true | _ => false end.

Definition is_compute_rewards (c : call) : bool :=
  match c with task_compute_rewards => true | _ => false end.

Definition is_get_observations (c : call) : bool :=
  match c with task_get_observations => true | _ => false end.

Definition is_task_reset (c : call) : bool :=
  match c with task_reset _ => true | _ => false end.

Definition is_log_call (c : call) : bool :=
  match c with
  | robot_reset_logs _ _ | robot_compute_logs
  | task_reset_logs _ _ | task_compute_logs => true
  | _ => false
  end.

Definition is_debug_vis (c : call) : bool :=
  match c with
  | task_create_task_visualization | task_update_task_visualization => true
  | _ => false
  end.

(** The calls made by the reset block of a step. *)
Definition is_reset_call (c : call) : bool :=
  match c with
  | robot_reset_logs _ _ | robot_compute_logs | task_reset_logs _ _
  | task_compute_logs | super_reset_idx _ | task_reset _ | scene_render => true
  | _ => false
  end.

(** How often a kind of call occurs in a log. *)
Definition count (p : call → bool) (l : list call) : nat := length (filter p l).

(** The phase of one environment step a call belongs to; the
    debug-visualization calls belong to none. *)
Definition phase (c : call) : option nat :=
  match c with
  | robot_process_actions _ => Some 0%nat
  | robot_apply_actions | scene_write_data_to_sim | sim_step | sim_render
  | scene_update => Some 1%nat
  | robot_get_dones | task_get_dones => Some 2%nat
  | task_compute_rewards => Some 3%nat
  | robot_reset_logs _ _ | robot_compute_logs | task_reset_logs _ _
  | task_compute_logs | super_reset_idx _ | task_reset _ | scene_render => Some 4%nat
  | event_manager_apply => Some 5%nat
  | task_get_observations => Some 6%nat
  | add_noise => Some 7%nat
  | task_create_task_visualization | task_update_task_visualization => None
  end.

(** A log is in step order when each call has a phase and the phases never
    decrease along the log. *)
Definition in_step_order (l : list call) : Prop :=
  ∃ ps : list nat, mapM phase l = Some ps ∧ StronglySorted le ps.

(** Running a method [n] times in a row. *)
Fixpoint iterate {W} (n : nat) (m : M W ()) : M W () :=
  match n with
  | O => mret ()
  | S n' => m;; iterate n' m
  end.

(** What no method of the environments changes: the configuration, the
    number of environments, the episode bound and the articulation's index
    set. *)
Definition frame {W} (s s' : Env W) : Prop :=
  cfg_debug_vis s' = cfg_debug_vis s
  ∧ cfg_decimation s' = cfg_decimation s
  ∧ num_envs s' = num_envs s
  ∧ max_episode_length s' = max_episode_length s
  ∧ robot__ALL_INDICES s' = robot__ALL_INDICES s.

(** [run m s a s' new]: from [s] the method [m] returns [a] in state [s'],
    having appended the calls [new] to the log. *)
Definition run {W A} (m : M W A) (s : Env W) (a : A) (s' : Env W) (new : list call) : Prop :=
  m s = Some (a, s') ∧ calls s' = calls s ++ new ∧ frame s s'.

(** The robot and task abstractions return their flags in shape
    [(num_envs,)]. *)
Definition dones_shaped {W} `{!robot_api.API W, !task_api.API W} (n : nat) : Prop :=
  ∀ w : W,
    length (robot_api.get_dones w).1.1 = n ∧ length (robot_api.get_dones w).1.2 = n
    ∧ length (task_api.get_dones w).1.1 = n ∧ length (task_api.get_dones w).1.2 = n.

(** [post m s Q]: from [s] the method [m] returns, and its result, final
    state and new calls satisfy [Q]. *)
Definition post {W A} (m : M W A) (s : Env W)
    (Q : A → Env W → list call → Prop) : Prop :=
  ∃ (a : A) (s' : Env W) (new : list call), run m s a s' new ∧ Q a s' new.

(** A log in step order whose phases are all at least [lo]. *)
Definition ordered_from (lo : nat) (l : list call) : Prop :=
  ∃ ps : list nat,
    mapM phase l = Some ps ∧ StronglySorted le ps ∧ Forall (le lo) ps.

(** The two calls that make a physics substep: the robot applies its
    actions, the simulator steps. *)
Definition is_physics_substep (c : call) : bool := is_apply_actions c || is_sim_step c.

(** ** A small world to run the environments in

    Two environments; the store counts the physics steps, keeps the index
    sets the task was reset with and the state of the goal markers. *)

Module demo.
Record store := mkStore {
  physics_steps : nat;
  task_resets : list (list nat);
  markers : option nat;         (* None: not created; Some n: updated n times *)
}.

#[export] Instance robot : robot_api.API store := {|
  robot_api.process_actions := λ _ w, w;
  robot_api.apply_actions := λ w, w;
  robot_api.get_dones := λ w, (([false; true], [false; false]), w);
  robot_api.reset_logs := λ _ _ w, w;
  robot_api.compute_logs := λ w, ({[ "Episode_Reward/action_rate" := 0.5%float ]}, w);
|}.

#[export] Instance task : task_api.API store := {|
  task_api.get_observations := λ w, ([[0.0%float]; [1.0%float]], w);
  task_api.compute_rewards := λ w, ([0.0%float; 1.0%float], w);
  task_api.get_dones := λ w, (([false; false], [true; false]), w);
  task_api.reset_logs := λ _ _ w, w;
  task_api.compute_logs := λ w, ({[ "Episode_Reward/position" := 1.0%float ]}, w);
  task_api.reset := λ ids w,
    mkStore (physics_steps w) (task_resets w ++ [ids]) (markers w);
  task_api.create_task_visualization := λ w,
    mkStore (physics_steps w) (task_resets w) (Some 0%nat);
  task_api.update_task_visualization := λ w,
    mkStore (physics_steps w) (task_resets w) (S <$> markers w);
|}.

#[export] Instance sim : host.API store := {|
  host._reset_idx := λ ids '(buf, w),
    (foldr (λ i b, <[i := 0]> b) buf ids, w);
  host.write_data_to_sim := λ w, w;
  host.step_physics := λ w,
    mkStore (S (physics_steps w)) (task_resets w) (markers w);
  host.rendering_required := λ _, false;
  host.render := λ w, w;
  host.update := λ w, w;
  host.has_rtx_sensors := λ _, false;
  host.render_scene := λ w, w;
  host.has_events := λ _, false;
  host.apply_events := λ w, w;
  host.noise_required := λ _, false;
  host._add_noise := λ obs w, (obs, w);
|}.

Definition env (debug_vis : bool) : Env store :=
  {| cfg_debug_vis := debug_vis;
     cfg_decimation := 4;
     num_envs := 2;
     max_episode_length := 300;
     episode_length_buf := [10; 299];
     robot__ALL_INDICES := [0%nat; 1%nat];
     extras := ∅;
     world := mkStore 0 [] None;
     calls := [] |}.

(** The same two environments with an episode bound past the signed
    64-bit range. *)
Definition long_env : Env store :=
  {| cfg_debug_vis := true;
     cfg_decimation := 4;
     num_envs := 2;
     max_episode_length := 2 ^ 63 + 1;
     episode_length_buf := [1; 2];
     robot__ALL_INDICES := [0%nat; 1%nat];
     extras := ∅;
     world := mkStore 0 [] None;
     calls := [] |}.
End demo.

(** ** rans/tasks_cfg/__init__.py: the task-configuration registry *)

Module tasks_cfg.
(** The configuration classes the module imports, in source order: the
    base class [TaskCoreCfg] first, then the eight task configurations. *)
Inductive task_cfg : Type :=
  | TaskCoreCfg
  | GoThroughPosesCfg
  | GoThroughPositionsCfg
  | GoToPoseCfg
  | GoToPositionCfg
  | PushBlockCfg
  | RaceWaypointsCfg
  | RaceWayposesCfg
  | TrackVelocitiesCfg.

(** Modelled from the spec: the class [factory] of [rans.utils.misc] is
    not among the sources.  The spec calls the registry "a
    name-to-configuration mapping": a fresh factory maps no name,
    [register] binds a name to a class, and a lookup reads the binding. *)
Definition factory {C : Type} : gmap string C := ∅.

Definition register {C : Type} (name : string) (class_ : C)
    (self : gmap string C) : gmap string C :=
  <[name := class_]> self.

Definition lookup {C : Type} (name : string) (self : gmap string C) : option C :=
  self !! name.

(** The register calls of the module, in source order. *)
Definition registrations : list (string * task_cfg) :=
  [ ("GoThroughPoses", GoThroughPosesCfg);
    ("GoThroughPositions", GoThroughPositionsCfg);
    ("GoToPose", GoToPoseCfg);
    ("GoToPosition", GoToPositionCfg);
    ("PushBlock", PushBlockCfg);
    ("RaceWaypoints", RaceWaypointsCfg);
    ("RaceWayposes", RaceWayposesCfg);
    ("TrackVelocities", TrackVelocitiesCfg) ].

Definition TASK_CFG_FACTORY : gmap string task_cfg :=
  foldl (λ self r, register r.1 r.2 self) factory registrations.

(** The Python names of the classes. *)
Definition class_name (c : task_cfg) : string :=
  match c with
  | TaskCoreCfg => "TaskCoreCfg"
  | GoThroughPosesCfg => "GoThroughPosesCfg"
  | GoThroughPositionsCfg => "GoThroughPositionsCfg"
  | GoToPoseCfg => "GoToPoseCfg"
  | GoToPositionCfg => "GoToPositionCfg"
  | PushBlockCfg => "PushBlockCfg"
  | RaceWaypointsCfg => "RaceWaypointsCfg"
  | RaceWayposesCfg => "RaceWayposesCfg"
  | TrackVelocitiesCfg => "TrackVelocitiesCfg"
  end.
End tasks_cfg.

(** ** rans/__init__.py: the names the package exports *)

Module rans.
(** The [from .<submodule> import <names>] statements, in source order. *)
Definition init_imports : list (string * list string) :=
  [ ("robots_cfg",
     ["FloatingPlatformRobotCfg"; "LeatherbackRobotCfg"; "RobotCoreCfg"; "JetbotRobotCfg"]);
    ("robots",
     ["FloatingPlatformRobot"; "LeatherbackRobot"; "RobotCore"; "JetbotRobot"]);
    ("tasks_cfg",
     ["GoThroughPosesCfg"; "GoThroughPositionsCfg"; "GoToPoseCfg"; "GoToPositionCfg";
      "RaceWaypointsCfg"; "RaceWayposesCfg"; "TaskCoreCfg"; "TrackVelocitiesCfg"]);
    ("tasks",
     ["GoThroughPosesTask"; "GoThroughPositionsTask"; "GoToPoseTask"; "GoToPositionTask";
      "RaceWaypointsTask"; "RaceWayposesTask"; "TaskCore"; "TrackVelocitiesTask"]);
    ("utils", ["TrackGenerator"; "PerEnvSeededRNG"]) ].

(** The attributes of the package once [__init__] has run: the imported
    names and the submodules the imports loaded. *)
Definition namespace : list string :=
  concat (snd <$> init_imports) ++ (fst <$> init_imports).

Definition exports (name : string) : bool := bool_decide (name ∈ namespace).

(** [from omni.isaac.lab_tasks.rans import n1, ..., nk]: the names are
    bound when every one is an attribute of the package; otherwise the
    statement raises ImportError. *)
Definition import_from (names : list string) : option (list string) :=
  if forallb exports names then Some names else None.
End rans.

(** The names the two environment modules import from the package. *)
Definition FloatingPlatformGoThroughPosesEnv_imports : list string :=
  ["FloatingPlatformRobot"; "FloatingPlatformRobotCfg"; "GoThroughPosesCfg"; "GoThroughPosesTask"].

Definition LeatherbackPushBlockEnv_imports : list string :=
  ["LeatherbackRobot"; "LeatherbackRobotCfg"; "PushBlockCfg"; "PushBlockTask"].

(** ** gymnasium spaces *)

Inductive space : Type :=
  | Discrete (n : nat)
  | MultiDiscrete (nvec : list nat)
  | MultiBinary (shape : list nat)
  | Box (low high : float) (shape : list nat)
  | Tuple (spaces : list space).

(** [vector.utils.batch_space(space, n)] on the spaces the code builds.
    gymnasium batches a [MultiDiscrete] into a box with per-entry bounds,
    which [Box] here does not carry: that case is left out. *)
Fixpoint batch_space (sp : space) (n : nat) : option space :=
  match sp with
  | Discrete k => Some (MultiDiscrete (replicate n k))
  | MultiDiscrete _ => None
  | MultiBinary shape => Some (Box 0 1 (n :: shape))
  | Box low high shape => Some (Box low high (n :: shape))
  | Tuple spaces => Tuple <$> mapM (λ sub, batch_space sub n) spaces
  end.

(** ** rans/robots_cfg/floating_platform_cfg.py *)

Module floating_platform_cfg.
Record FloatingPlatformRobotCfg := {
  is_reaction_wheel : bool;
  num_thrusters : nat;
  thrusters_dof_name : list string;
  rew_action_rate_scale : float;
  rew_joint_accel_scale : float;
  max_thrust : float;
  split_thrust : bool;
  reaction_wheel_dof_name : option (list string);
  reaction_wheel_scale : option float;
  action_space : space;
}.

(** The class body.  Python runs it once, when the class is created:
    [is_reaction_wheel] and [num_thrusters] are bound to [False] and [8],
    and the attributes below them are computed from these two values.
    [FloatingPlatformRobotCfg()] has the attributes so computed. *)
Definition default : FloatingPlatformRobotCfg :=
  let is_reaction_wheel := false in
  let num_thrusters := 8%nat in
  {| is_reaction_wheel := is_reaction_wheel;
     num_thrusters := num_thrusters;
     thrusters_dof_name := (λ i : nat, "thruster_" +:+ pretty i) <$> seq 1 num_thrusters;
     rew_action_rate_scale := (-0.12)%float;
     rew_joint_accel_scale := (-2.5e-6)%float;
     max_thrust := 100.0%float;
     split_thrust := true;
     reaction_wheel_dof_name :=
       if is_reaction_wheel then Some ["reaction_wheel"] else None;
     reaction_wheel_scale :=
       if is_reaction_wheel then Some 0.1%float else None;
     action_space :=
       if negb is_reaction_wheel then MultiBinary [num_thrusters]
       else Tuple [MultiBinary [num_thrusters]; Box (-1.0) 1.0 [1%nat]] |}.

(** [cfg.is_reaction_wheel = b] on an instance: the one attribute is
    changed; the class body is not run again, so no other attribute is
    computed anew. *)
Definition set_is_reaction_wheel (b : bool) (cfg : FloatingPlatformRobotCfg)
    : FloatingPlatformRobotCfg :=
  {| is_reaction_wheel := b;
     num_thrusters := num_thrusters cfg;
     thrusters_dof_name := thrusters_dof_name cfg;
     rew_action_rate_scale := rew_action_rate_scale cfg;
     rew_joint_accel_scale := rew_joint_accel_scale cfg;
     max_thrust := max_thrust cfg;
     split_thrust := split_thrust cfg;
     reaction_wheel_dof_name := reaction_wheel_dof_name cfg;
     reaction_wheel_scale := reaction_wheel_scale cfg;
     action_space := action_space cfg |}.

(** [cfg.num_thrusters = n] on an instance. *)
Definition set_num_thrusters (n : nat) (cfg : FloatingPlatformRobotCfg)
    : FloatingPlatformRobotCfg :=
  {| is_reaction_wheel := is_reaction_wheel cfg;
     num_thrusters := n;
     thrusters_dof_name := thrusters_dof_name cfg;
     rew_action_rate_scale := rew_action_rate_scale cfg;
     rew_joint_accel_scale := rew_joint_accel_scale cfg;
     max_thrust := max_thrust cfg;
     split_thrust := split_thrust cfg;
     reaction_wheel_dof_name := reaction_wheel_dof_name cfg;
     reaction_wheel_scale := reaction_wheel_scale cfg;
     action_space := action_space cfg |}.
End floating_platform_cfg.

(** ** The configuration and the spaces of the floating-platform environment *)

Module FloatingPlatformGoThroughPosesEnvCfg.
Import floating_platform_cfg.

Record t := {
  scene_num_envs : nat;
  decimation : nat;
  robot_cfg : FloatingPlatformRobotCfg;
  debug_vis : bool;
  episode_length_s : float;
  num_actions : nat;
  num_observations : nat;
  num_states : nat;
}.

(** The class body.  Python runs it once, when the class is created:
    [robot_cfg] is bound to [FloatingPlatformRobotCfg()], and the
    expression for [num_actions] reads that object. *)
Definition default : t :=
  let robot_cfg := floating_platform_cfg.default in
  {| scene_num_envs := 4096;
     decimation := 4;
     robot_cfg := robot_cfg;
     debug_vis := true;
     episode_length_s := 20.0%float;
     num_actions := if negb (is_reaction_wheel robot_cfg) then 8 else 9;
     num_observations := 21;
     num_states := 0 |}.

(** [cfg.robot_cfg = rc] on an instance: the one attribute is changed;
    [num_actions] keeps the value the class body gave it. *)
Definition set_robot_cfg (rc : FloatingPlatformRobotCfg) (cfg : t) : t :=
  {| scene_num_envs := scene_num_envs cfg;
     decimation := decimation cfg;
     robot_cfg := rc;
     debug_vis := debug_vis cfg;
     episode_length_s := episode_length_s cfg;
     num_actions := num_actions cfg;
     num_observations := num_observations cfg;
     num_states := num_states cfg |}.

(** The default configuration with the reaction wheel switched on in its
    robot configuration. *)
Definition with_reaction_wheel : t :=
  set_robot_cfg (set_is_reaction_wheel true floating_platform_cfg.default) default.

(** [_configure_gym_env_spaces]:
    [spaces.Tuple([spaces.Discrete(2)] * self.cfg.robot_cfg.num_thrusters)] *)
Definition single_action_space (cfg : t) : space :=
  Tuple (replicate (num_thrusters (robot_cfg cfg)) (Discrete 2)).

(** [vector.utils.batch_space(self.single_action_space, self.num_envs)] *)
Definition action_space (cfg : t) (num_envs : nat) : option space :=
  batch_space (single_action_space cfg) num_envs.
End FloatingPlatformGoThroughPosesEnvCfg.

(** ** rans/tasks_cfg/go_to_position_cfg.py *)

Module go_to_position_cfg.
(** [math.pi], the double nearest to pi. *)
Definition math_pi : float := 0x1.921fb54442d18p+1%float.

Record GoToPositionCfg := {
  spawn_min_dist : float;
  spawn_max_dist : float;
  spawn_min_heading_dist : float;
  spawn_max_heading_dist : float;
  spawn_min_lin_vel : float;
  spawn_max_lin_vel : float;
  spawn_min_ang_vel : float;
  spawn_max_ang_vel : float;
  goal_max_dist_from_origin : float;
  position_tolerance : float;
  maximum_robot_distance : float;
  reset_after_n_steps_in_tolerance : Z;
  position_exponential_reward_coeff : float;
  linear_velocity_min_value : float;
  linear_velocity_max_value : float;
  angular_velocity_min_value : float;
  angular_velocity_max_value : float;
  boundary_exponential_reward_coeff : float;
  position_weight : float;
  linear_velocity_weight : float;
  angular_velocity_weight : float;
  boundary_weight : float;
}.

(** [GoToPositionCfg()] *)
Definition default : GoToPositionCfg :=
  {| spawn_min_dist := 0.5;
     spawn_max_dist := 5.0;
     spawn_min_heading_dist := 0.0;
     spawn_max_heading_dist := math_pi;
     spawn_min_lin_vel := 0.0;
     spawn_max_lin_vel := 0.0;
     spawn_min_ang_vel := 0.0;
     spawn_max_ang_vel := 0.0;
     goal_max_dist_from_origin := 0.0;
     position_tolerance := 0.01;
     maximum_robot_distance := 10.0;
     reset_after_n_steps_in_tolerance := 100;
     position_exponential_reward_coeff := 0.25;
     linear_velocity_min_value := 0.5;
     linear_velocity_max_value := 2.0;
     angular_velocity_min_value := 0.5;
     angular_velocity_max_value := 20.0;
     boundary_exponential_reward_coeff := 1.0;
     position_weight := 1.0;
     linear_velocity_weight := -0.05;
     angular_velocity_weight := -0.05;
     boundary_weight := -10.0 |}.
End go_to_position_cfg.

(** ** standalone/tutorials/04_sensors/run_ray_caster_camera.py *)

Module run_ray_caster_camera.
Local Open Scope nat_scope.

(** A Python dict keeps its keys in insertion order: an association list
    with distinct keys; [d[key] = v] replaces in place or appends. *)
Fixpoint dict_set {V} (key : string) (v : V) (d : list (string * V)) : list (string * V) :=
  match d with
  | [] => [(key, v)]
  | (k, v') :: d' =>
      if decide (k = key) then (key, v) :: d' else (k, v') :: dict_set key v d'
  end.

Fixpoint dict_get {V} (key : string) (d : list (string * V)) : option V :=
  match d with
  | [] => None
  | (k, v) :: d' => if decide (k = key) then Some v else dict_get key d'
  end.

(** The values of [rep_output]: the data alone, the data with its info, or
    the trigger entry. *)
Inductive rep_value (D I F : Type) : Type :=
  | data_only (data : D)
  | data_info (data : D) (info : I)
  | on_time (frame : F).
Arguments data_only {D I F}.
Arguments data_info {D I F}.
Arguments on_time {D I F}.

(** Lines 133-135, the branch for a backend other than torch:
    [single_cam_data[key] = value[camera_index]] for every item of the
    output; an index out of range raises. *)
Fixpoint index_items {D} (camera_index : nat) (items : list (string * list D))
    (single_cam_data : list (string * D)) : option (list (string * D)) :=
  match items with
  | [] => Some single_cam_data
  | (key, value) :: items' =>
      match value !! camera_index with
      | Some v => index_items camera_index items' (dict_set key v single_cam_data)
      | None => None
      end
  end.

(** Lines 142-145: a key is bound to the data with its info when the info
    is not [None], and to the data alone otherwise. *)
Definition entry {D I F} (data : D) (info : option I) : rep_value D I F :=
  match info with
  | Some info => data_info data info
  | None => data_only data
  end.

(** Lines 141-145: the loop over
    [zip(single_cam_data.keys(), single_cam_data.values(), single_cam_info.values())];
    [zip] stops at the shortest of its arguments. *)
Fixpoint pack {D I F} (keys : list string) (values : list D) (infos : list (option I))
    (rep_output : list (string * rep_value D I F)) : list (string * rep_value D I F) :=
  match keys, values, infos with
  | key :: keys', data :: values', info :: infos' =>
      pack keys' values' infos' (dict_set key (entry data info) rep_output)
  | _, _, _ => rep_output
  end.

(** Lines 140-147: [rep_output] as handed to the writer. *)
Definition rep_output {D I F} (single_cam_data : list (string * D))
    (single_cam_info : list (string * option I)) (frame : F)
    : list (string * rep_value D I F) :=
  dict_set "trigger_outputs" (on_time frame)
    (pack (single_cam_data.*1) (single_cam_data.*2) (single_cam_info.*2) []).

(** [t[..., -1]] on a tensor of three dimensions; an empty last dimension
    raises. *)
Definition last_component {A} (t : list (list (list A))) : option (list (list A)) :=
  mapM (mapM last) t.

(** [t.view(-1, d1, d2)] on the entries of [t] in row-major order: the
    number of entries has to be a multiple of [d1 * d2]. *)
Definition view {A} (d1 d2 : nat) (flat : list A) : option (list (list (list A))) :=
  if decide (d1 * d2 ≠ 0 ∧ length flat `mod` (d1 * d2) = 0)
  then
    let n := length flat `div` (d1 * d2) in
    Some (reshape (replicate n d1) (reshape (replicate (n * d1) d2) flat))
  else None.

(** The transpose of a matrix with [cols] columns. *)
Fixpoint transpose {A} (cols : nat) (m : list (list A)) : list (list A) :=
  match m with
  | [] => replicate cols []
  | row :: m' => zip_with cons row (transpose cols m')
  end.

(** Line 159:
    [reproj_points[..., -1].view(-1, im_width, im_height).transpose_(1, 2)] *)
Definition reproj_depths {A} (im_width im_height : nat)
    (reproj_points : list (list (list A))) : option (list (list (list A))) :=
  match last_component reproj_points with
  | Some z =>
      match view im_width im_height (concat z) with
      | Some v => Some (transpose im_height <$> v)
      | None => None
      end
  | None => None
  end.

End run_ray_caster_camera.


(** ** Shapes under broadcasting *)

(** Two one-dimensional shapes can be combined entry by entry when they
    are equal or one of them is 1. *)
Definition broadcastable (n m : nat) : Prop := n = m ∨ n = 1%nat ∨ m = 1%nat.

(** The shape of the combination. *)
Definition broadcast_length (n m : nat) : nat := if decide (n = 1%nat) then m else n.

(** What the per-step methods leave alone: the configuration, the episode
    buffer and extras. *)
Definition env_owned_unchanged {W} (s s' : Env W) : Prop :=
  frame s s'
  ∧ episode_length_buf s' = episode_length_buf s
  ∧ extras s' = extras s.

(** ** rans/robots_cfg/leatherback_cfg.py *)

Module leatherback_cfg.
(** [math.pi], the double nearest to pi. *)
Definition math_pi : float := 0x1.921fb54442d18p+1%float.

Record LeatherbackRobotCfg := {
  throttle_dof_name : list string;
  steering_dof_name : list string;
  rew_action_rate_scale : float;
  rew_joint_accel_scale : float;
  steering_scale : float;
  throttle_scale : float;
}.

(** [LeatherbackRobotCfg()] *)
Definition default : LeatherbackRobotCfg :=
  {| throttle_dof_name :=
       [ "Wheel__Knuckle__Front_Left";
         "Wheel__Knuckle__Front_Right";
         "Wheel__Upright__Rear_Right";
         "Wheel__Upright__Rear_Left" ];
     steering_dof_name :=
       [ "Knuckle__Upright__Front_Right";
         "Knuckle__Upright__Front_Left" ];
     rew_action_rate_scale := (-0.12)%float;
     rew_joint_accel_scale := (-2.5e-6)%float;
     steering_scale := (math_pi / 4.0)%float;
     throttle_scale := 20.0%float |}.
End leatherback_cfg.

(** ** sim/spawners/navigation_shapes/navigation_shapes_cfg.py *)

Module navigation_shapes_cfg.
(** The shape configurations, all subclasses of [NavigationShapeCfg]. *)
Inductive shape_cfg : Type :=
  | PinSphereCfg
  | DiamondCfg
  | BiColorDiamondCfg
  | PinDiamondCfg
  | ArrowCfg
  | PinArrowCfg.

(** The spawner functions of the module [navigation_shapes]. *)
Inductive spawner : Type :=
  | spawn_pin_with_sphere
  | spawn_diamond
  | spawn_bicolor_diamond
  | spawn_pin_with_diamond
  | spawn_arrow
  | spawn_pin_with_arrow.

(** The [func] attribute of each class. *)
Definition func (c : shape_cfg) : spawner :=
  match c with
  | PinSphereCfg => spawn_pin_with_sphere
  | DiamondCfg => spawn_diamond
  | BiColorDiamondCfg => spawn_bicolor_diamond
  | PinDiamondCfg => spawn_pin_with_diamond
  | ArrowCfg => spawn_arrow
  | PinArrowCfg => spawn_pin_with_arrow
  end.

(** The fields a class declares with the default [MISSING], in source
    order: they have to be given when the configuration is built. *)
Definition missing_fields (c : shape_cfg) : list string :=
  match c with
  | PinSphereCfg => ["sphere_radius"; "pin_radius"; "pin_length"]
  | DiamondCfg => ["diamond_height"; "diamond_width"]
  | BiColorDiamondCfg => ["diamond_height"; "diamond_width"]
  | PinDiamondCfg => ["diamond_height"; "diamond_width"; "pin_radius"; "pin_length"]
  | ArrowCfg =>
      ["arrow_body_radius"; "arrow_body_length"; "arrow_head_radius"; "arrow_head_length"]
  | PinArrowCfg =>
      ["arrow_body_radius"; "arrow_body_length"; "arrow_head_radius"; "arrow_head_length";
       "pin_radius"; "pin_length"]
  end.

(** The material paths a class has a default for: the one inherited from
    [NavigationShapeCfg] and the ones it adds. *)
Definition material_paths (c : shape_cfg) : list (string * string) :=
  ("visual_material_path", "material")
  :: match c with
     | BiColorDiamondCfg =>
         [("front_material_path", "material_front");
          ("back_material_path", "material_back")]
     | _ => []
     end.
End navigation_shapes_cfg.

(** ** Equality of configuration classes is decidable *)

#[global] Instance task_cfg_eq_dec : EqDecision tasks_cfg.task_cfg.
Proof. solve_decision. Defined.

(** * Properties *)

(** ** The task-configuration registry *)

Section Registry.
Import tasks_cfg.

Lemma lookup_register {C : Type} (name : string) (class_ : C) (self : gmap string C) :
  lookup name (register name class_ self) = Some class_.
Proof. unfold lookup, register. apply lookup_insert_eq. Qed.

Lemma lookup_register_other {C : Type} (name name' : string) (class_ : C)
    (self : gmap string C) :
  name ≠ name' → lookup name' (register name class_ self) = lookup name' self.
Proof. intros Hne. unfold lookup, register. by apply lookup_insert_ne. Qed.

Lemma lookup_factory {C : Type} (name : string) : lookup name (@factory C) = None.
Proof. apply lookup_empty. Qed.

(** C2: after the register calls of the module, each of the eight
    registered names looks up to the class registered under it, a name
    that was never registered looks up to nothing, and on any factory a
    lookup of the name just registered returns the class just
    registered. *)
Theorem TASK_CFG_FACTORY_round_trip :
  lookup "GoThroughPoses" TASK_CFG_FACTORY = Some GoThroughPosesCfg
  ∧ lookup "GoThroughPositions" TASK_CFG_FACTORY = Some GoThroughPositionsCfg
  ∧ lookup "GoToPose" TASK_CFG_FACTORY = Some GoToPoseCfg
  ∧ lookup "GoToPosition" TASK_CFG_FACTORY = Some GoToPositionCfg
  ∧ lookup "PushBlock" TASK_CFG_FACTORY = Some PushBlockCfg
  ∧ lookup "RaceWaypoints" TASK_CFG_FACTORY = Some RaceWaypointsCfg
  ∧ lookup "RaceWayposes" TASK_CFG_FACTORY = Some RaceWayposesCfg
  ∧ lookup "TrackVelocities" TASK_CFG_FACTORY = Some TrackVelocitiesCfg
  ∧ (∀ name : string,
       name ∉ (registrations.*1) → lookup name TASK_CFG_FACTORY = None)
  ∧ (∀ (name : string) (class_ : task_cfg) (self : gmap string task_cfg),
       lookup name (register name class_ self) = Some class_).
Proof.
  repeat split; try reflexivity.
  - intros name Hname. cbn in Hname.
    rewrite !not_elem_of_cons in Hname. destruct_and!.
    unfold TASK_CFG_FACTORY, registrations. cbn [foldl fst snd].
    rewrite !lookup_register_other by done.
    apply lookup_factory.
  - intros. apply lookup_register.
Qed.

Lemma TASK_CFG_FACTORY_round_trip_witness :
  ("Hover" ∉ registrations.*1) ∧ lookup "Hover" TASK_CFG_FACTORY = None.
Proof.
  assert (Hn : "Hover" ∉ (registrations.*1)).
  { apply (bool_decide_unpack _). vm_compute. exact I. }
  split; [exact Hn |].
  destruct TASK_CFG_FACTORY_round_trip as (_ & _ & _ & _ & _ & _ & _ & _ & Hnone & _).
  exact (Hnone "Hover" Hn).
Defined.
End Registry.

(** ** The exports of the rans package *)

(** C5: the names [PushBlockCfg] and [PushBlockTask], which
    leatherback_push_block.py imports from the rans package, are not among
    the attributes of the package, so the import statement of that module
    raises; the floating-platform module's import resolves, and PushBlock
    is registered in the factory all the same. *)
Theorem PushBlock_not_exported :
  rans.exports "PushBlockCfg" = false
  ∧ rans.exports "PushBlockTask" = false
  ∧ rans.import_from LeatherbackPushBlockEnv_imports = None
  ∧ rans.import_from FloatingPlatformGoThroughPosesEnv_imports
    = Some FloatingPlatformGoThroughPosesEnv_imports
  ∧ tasks_cfg.lookup "PushBlock" tasks_cfg.TASK_CFG_FACTORY = Some tasks_cfg.PushBlockCfg
  ∧ filter (λ c, negb (rans.exports (tasks_cfg.class_name c)))
      (tasks_cfg.registrations.*2) = [tasks_cfg.PushBlockCfg].
Proof. repeat split; vm_compute; reflexivity. Qed.

(** ** The action space of the floating-platform environment *)

Section ActionSpace.
Import floating_platform_cfg FloatingPlatformGoThroughPosesEnvCfg.

Lemma batch_space_replicate_Discrete (k m n : nat) :
  mapM (λ sub, batch_space sub n) (replicate m (Discrete k))
  = Some (replicate m (MultiDiscrete (replicate n k))).
Proof.
  induction m as [|m IH]; [reflexivity |].
  cbn [replicate mapM]. rewrite IH. reflexivity.
Qed.

(** C6: the single-environment action space of the floating-platform
    environment is a tuple with one component per thruster of the
    configuration's robot, each the two-valued space [Discrete 2]; for the
    default configuration, 8 thrusters and no reaction wheel, it is the
    tuple of 8 such components; the batched action space is the batching
    of that space over [num_envs], each component becoming [num_envs]
    two-valued choices; and [num_actions] is 8: the class body computes
    it once, from the default robot configuration, and a configuration
    given another robot configuration keeps that value. *)
Theorem floating_platform_action_space :
  (∀ cfg : t, ∃ components : list space,
      single_action_space cfg = Tuple components
      ∧ length components = num_thrusters (robot_cfg cfg)
      ∧ Forall (λ sp, sp = Discrete 2) components)
  ∧ num_thrusters (robot_cfg default) = 8%nat
  ∧ is_reaction_wheel (robot_cfg default) = false
  ∧ single_action_space default
    = Tuple [Discrete 2; Discrete 2; Discrete 2; Discrete 2;
             Discrete 2; Discrete 2; Discrete 2; Discrete 2]
  ∧ (∀ (cfg : t) (num_envs : nat),
      action_space cfg num_envs = batch_space (single_action_space cfg) num_envs
      ∧ action_space cfg num_envs
        = Some (Tuple (replicate (num_thrusters (robot_cfg cfg))
                         (MultiDiscrete (replicate num_envs 2%nat)))))
  ∧ num_actions default = 8%nat
  ∧ (∀ rc : FloatingPlatformRobotCfg,
      robot_cfg (set_robot_cfg rc default) = rc
      ∧ num_actions (set_robot_cfg rc default) = 8%nat).
Proof.
  split_and!; try reflexivity.
  - intros cfg. eexists. split_and!; [reflexivity | apply length_replicate |].
    apply Forall_forall. intros sp Hsp. by apply elem_of_replicate in Hsp as [-> _].
  - intros cfg n. split; [reflexivity |].
    unfold action_space, single_action_space. cbn [batch_space].
    by rewrite batch_space_replicate_Discrete.
  - intros rc. by split.
Qed.

(** The configuration of a platform with a reaction wheel has
    [num_actions] 8, not 9. *)
Lemma floating_platform_num_actions_counterexample :
  is_reaction_wheel (robot_cfg with_reaction_wheel) = true
  ∧ num_actions with_reaction_wheel = 8%nat
  ∧ num_actions with_reaction_wheel ≠ 9%nat.
Proof. split_and!; [reflexivity | reflexivity | discriminate]. Qed.
End ActionSpace.

(** ** The default GoToPosition configuration *)

Section GoToPosition.
Import go_to_position_cfg.

(** C10: in the default [GoToPositionCfg] every spawn minimum is at most
    the corresponding spawn maximum, the position tolerance is strictly
    positive, and the maximal spawn distance, 5.0, is strictly below
    [maximum_robot_distance], 10.0. *)
Theorem GoToPositionCfg_default_ordered :
  PrimFloat.leb (spawn_min_dist default) (spawn_max_dist default) = true
  ∧ PrimFloat.leb (spawn_min_heading_dist default) (spawn_max_heading_dist default) = true
  ∧ PrimFloat.leb (spawn_min_lin_vel default) (spawn_max_lin_vel default) = true
  ∧ PrimFloat.leb (spawn_min_ang_vel default) (spawn_max_ang_vel default) = true
  ∧ PrimFloat.ltb 0 (position_tolerance default) = true
  ∧ spawn_max_dist default = 5.0%float
  ∧ maximum_robot_distance default = 10.0%float
  ∧ PrimFloat.ltb (spawn_max_dist default) (maximum_robot_distance default) = true.
Proof. repeat split; reflexivity. Qed.
End GoToPosition.

(** ** The environments *)

Section EnvProps.
Context {W : Type} `{!robot_api.API W, !task_api.API W, !host.API W}.

(** *** Tensors *)

Lemma tensor_or_same_shape (a b : list bool) :
  length a = length b → tensor_or a b = Some (zip_with orb a b).
Proof. intros Hlen. unfold tensor_or. by rewrite decide_True. Qed.

Lemma tensor_ge_signed (t : list Z) (k : Z) :
  - 2 ^ 63 ≤ k < 2 ^ 63 → tensor_ge t k = Some ((λ x, x >=? k) <$> t).
Proof. intros Hk. unfold tensor_ge. by rewrite decide_True. Qed.

Lemma tensor_ge_wrapped (t : list Z) (k : Z) :
  2 ^ 63 ≤ k < 2 ^ 64 → tensor_ge t k = Some ((λ x, x >=? k - 2 ^ 64) <$> t).
Proof.
  intros Hk. unfold tensor_ge.
  rewrite decide_False by lia. by rewrite decide_True.
Qed.

Lemma tensor_ge_is_Some (t : list Z) (k : Z) :
  is_Some (tensor_ge t k) ↔ - 2 ^ 63 ≤ k < 2 ^ 64.
Proof.
  unfold tensor_ge. repeat case_decide.
  all: split; [intros Hs | intros Hk].
  all: try (by eauto); lia.
Qed.

Lemma length_tensor_ge (t : list Z) (k : Z) (r : list bool) :
  tensor_ge t k = Some r → length r = length t.
Proof.
  unfold tensor_ge. repeat case_decide; intros Heq; simplify_eq;
    by rewrite length_fmap.
Qed.

Lemma length_tensor_add (t : list Z) (k : Z) : length (tensor_add t k) = length t.
Proof. apply length_fmap. Qed.

Lemma elem_of_nonzero_from (k : nat) (t : list bool) (j : nat) :
  j ∈ nonzero_from k t ↔ ∃ i : nat, j = (k + i)%nat ∧ t !! i = Some true.
Proof.
  revert k. induction t as [|b t IH]; intros k; cbn [nonzero_from].
  { split; [by intros ?%elem_of_nil | by intros (i & _ & ?)]. }
  assert (Htail : j ∈ nonzero_from (S k) t
                  ↔ ∃ i : nat, j = (k + S i)%nat ∧ (b :: t) !! S i = Some true).
  { rewrite IH. split; intros (i & -> & Hi); exists i; (split; [lia | done]). }
  destruct b.
  - rewrite elem_of_cons, Htail. split.
    + intros [-> | (i & -> & Hi)]; [exists 0%nat | exists (S i)]; (split; [lia | done]).
    + intros ([|i] & -> & Hi); [left; lia | right; by exists i].
  - rewrite Htail. split.
    + intros (i & -> & Hi). by exists (S i).
    + intros ([|i] & -> & Hi); [done | by exists i].
Qed.

Lemma elem_of_nonzero (t : list bool) (i : nat) : i ∈ nonzero t ↔ t !! i = Some true.
Proof.
  unfold nonzero. rewrite elem_of_nonzero_from. split.
  - by intros (i' & -> & Hi).
  - intros Hi. by exists i.
Qed.

Lemma lookup_zip_with_orb_true (a b : list bool) (i : nat) :
  length a = length b →
  zip_with orb a b !! i = Some true ↔ a !! i = Some true ∨ b !! i = Some true.
Proof.
  intros Hlen. rewrite lookup_zip_with. split.
  - destruct (a !! i) as [x|], (b !! i) as [y|]; cbn; try done.
    intros [= Hor]. apply orb_true_iff in Hor as [-> | ->]; auto.
  - intros [Ha | Hb].
    + rewrite Ha. cbn.
      destruct (lookup_lt_is_Some_2 b i) as [y ->]; [|done].
      rewrite <- Hlen. by apply lookup_lt_is_Some_1; eauto.
    + rewrite Hb.
      destruct (lookup_lt_is_Some_2 a i) as [x ->].
      { rewrite Hlen. by apply lookup_lt_is_Some_1; eauto. }
      cbn. by rewrite orb_true_r.
Qed.

Lemma length_zip_with_orb (a b : list bool) :
  length a = length b → length (zip_with orb a b) = length a.
Proof. intros Hlen. rewrite length_zip_with. lia. Qed.

(** *** Rules for [post] *)

Lemma frame_refl (s : Env W) : frame s s.
Proof. by repeat split. Qed.

Lemma frame_trans (s1 s2 s3 : Env W) : frame s1 s2 → frame s2 s3 → frame s1 s3.
Proof. unfold frame. intros (? & ? & ? & ? & ?) (? & ? & ? & ? & ?). split_and!; congruence. Qed.

Lemma post_mret {A} (a : A) (s : Env W) Q : Q a s [] → post (mret a) s Q.
Proof.
  intros HQ. exists a, s, []. split; [|done].
  split_and!; [done | by rewrite (right_id_L [] (++)) | apply frame_refl].
Qed.

Lemma post_gets {A} (f : Env W → A) (s : Env W) Q : Q (f s) s [] → post (gets f) s Q.
Proof.
  intros HQ. exists (f s), s, []. split; [|done].
  split_and!; [done | by rewrite (right_id_L [] (++)) | apply frame_refl].
Qed.

Lemma post_invoke {A} (c : call) (f : W → A * W) (s : Env W) Q :
  (∀ s' : Env W,
      episode_length_buf s' = episode_length_buf s →
      extras s' = extras s →
      world s' = (f (world s)).2 →
      Q (f (world s)).1 s' [c]) →
  post (invoke c f) s Q.
Proof.
  intros HQ. unfold post, run, invoke.
  destruct (f (world s)) as [a w] eqn:Hf.
  eexists _, _, _. split; [split_and!; [reflexivity | reflexivity | by repeat split] |].
  by apply HQ.
Qed.

Lemma post_invoke_ (c : call) (f : W → W) (s : Env W) Q :
  (∀ s' : Env W,
      episode_length_buf s' = episode_length_buf s →
      extras s' = extras s →
      world s' = f (world s) →
      Q () s' [c]) →
  post (invoke_ c f) s Q.
Proof. intros HQ. unfold invoke_. by apply post_invoke. Qed.

Lemma post_bind {A B} (m : M W A) (f : A → M W B) (s : Env W) Qm Q :
  post m s Qm →
  (∀ a s1 L1, frame s s1 → Qm a s1 L1 →
              post (f a) s1 (λ b s2 L2, frame s s2 → Q b s2 (L1 ++ L2))) →
  post (m ≫= f) s Q.
Proof.
  intros (a & s1 & L1 & (Hm & Hc1 & Hf1) & HQm) Hk.
  destruct (Hk a s1 L1 Hf1 HQm) as (b & s2 & L2 & (Hfa & Hc2 & Hf2) & HQ).
  exists b, s2, (L1 ++ L2). split.
  - split_and!.
    + unfold mbind, M_bind. by rewrite Hm.
    + by rewrite Hc2, Hc1, (assoc_L (++)).
    + by eapply frame_trans.
  - apply HQ. by eapply frame_trans.
Qed.

Lemma post_mono {A} (m : M W A) (s : Env W) (Q Q' : A → Env W → list call → Prop) :
  post m s Q → (∀ a s' L, frame s s' → Q a s' L → Q' a s' L) → post m s Q'.
Proof.
  intros (a & s' & L & Hrun & HQ) Himp. exists a, s', L. split; [done|].
  apply Himp; [apply Hrun | done].
Qed.

Lemma post_when (b : bool) (m : M W ()) (s : Env W) Q :
  (b = true → post m s Q) → (b = false → Q () s []) → post (DirectRLEnv.when b m) s Q.
Proof.
  intros Ht Hf. destruct b; cbn; [by apply Ht | apply post_mret; by apply Hf].
Qed.

Lemma post_gets_sp {A} (f : Env W → A) (s : Env W) :
  post (gets f) s (λ a s' L, a = f s ∧ s' = s ∧ L = []).
Proof. by apply post_gets. Qed.

Lemma post_invoke_sp {A} (c : call) (f : W → A * W) (s : Env W) :
  post (invoke c f) s
    (λ a s' L, a = (f (world s)).1 ∧ L = [c]
               ∧ episode_length_buf s' = episode_length_buf s
               ∧ extras s' = extras s
               ∧ world s' = (f (world s)).2).
Proof. apply post_invoke. intros s' ? ? ?. by split_and!. Qed.

Lemma post_invoke__sp (c : call) (f : W → W) (s : Env W) :
  post (invoke_ c f) s
    (λ _ s' L, L = [c]
               ∧ episode_length_buf s' = episode_length_buf s
               ∧ extras s' = extras s
               ∧ world s' = f (world s)).
Proof. apply post_invoke_. intros s' ? ? ?. by split_and!. Qed.

Lemma post_when_invoke_ (b : bool) (c : call) (f : W → W) (s : Env W) :
  post (DirectRLEnv.when b (invoke_ c f)) s
    (λ _ s' L, L = (if b then [c] else [])
               ∧ episode_length_buf s' = episode_length_buf s).
Proof.
  apply post_when; intros ->; [|done].
  eapply post_mono; [apply post_invoke__sp |].
  intros _ s' L _ (-> & Hbuf & _). done.
Qed.

Lemma post_eq {A} (m : M W A) (s : Env W) Q :
  post m s Q →
  post m s (λ a s' L, m s = Some (a, s') ∧ calls s' = calls s ++ L ∧ Q a s' L).
Proof.
  intros (a & s' & L & Hrun & HQ). exists a, s', L. split; [done |].
  destruct Hrun as (? & ? & ?). done.
Qed.

Lemma post_add_episode_length_buf (k : Z) (s : Env W) :
  post (add_episode_length_buf k) s
    (λ _ s' L, L = []
               ∧ episode_length_buf s' = tensor_add (episode_length_buf s) k
               ∧ calls s' = calls s).
Proof.
  eexists (), _, []. split.
  - split_and!; [reflexivity | cbn; by rewrite (right_id_L [] (++)) | by repeat split].
  - by split_and!.
Qed.

Lemma post_lift_option {A} (o : option A) (a : A) (s : Env W) :
  o = Some a → post (lift_option o) s (λ a' s' L, a' = a ∧ s' = s ∧ L = []).
Proof. intros ->. by apply post_mret. Qed.

(** *** Logs in phase order *)

Lemma ordered_from_nil (lo : nat) : ordered_from lo [].
Proof. exists []. split_and!; [done | constructor | constructor]. Qed.

Lemma ordered_from_cons (lo p : nat) (c : call) (l : list call) :
  phase c = Some p → (lo ≤ p)%nat → ordered_from p l → ordered_from lo (c :: l).
Proof.
  intros Hc Hlo (ps & Hps & Hsorted & Hbound).
  exists (p :: ps). split_and!.
  - cbn. rewrite Hc. cbn. rewrite Hps. reflexivity.
  - by constructor.
  - constructor; [done |].
    eapply Forall_impl; [exact Hbound |]. intros q Hq. cbn in Hq. lia.
Qed.

Lemma ordered_from_block (lo p : nat) (block l : list call) :
  Forall (λ c, phase c = Some p) block → (lo ≤ p)%nat →
  ordered_from p l → ordered_from lo (block ++ l).
Proof.
  intros Hblock Hlo Hl. revert lo Hlo.
  induction Hblock as [|c block Hc _ IH]; intros lo Hlo; cbn [app].
  - destruct Hl as (ps & Hps & Hsorted & Hbound).
    exists ps. split_and!; [done | done |].
    eapply Forall_impl; [exact Hbound |]. intros q Hq. cbn in Hq. lia.
  - eapply ordered_from_cons; [exact Hc | exact Hlo | by apply IH].
Qed.

Lemma ordered_from_in_step_order (lo : nat) (l : list call) :
  ordered_from lo l → in_step_order l.
Proof. intros (ps & Hps & Hsorted & _). by exists ps. Qed.

Lemma count_app (p : call → bool) (l1 l2 : list call) :
  count p (l1 ++ l2) = (count p l1 + count p l2)%nat.
Proof. unfold count. by rewrite filter_app, length_app. Qed.

Lemma count_cons (p : call → bool) (c : call) (l : list call) :
  count p (c :: l) = ((if p c then 1 else 0) + count p l)%nat.
Proof.
  unfold count. destruct (p c) eqn:Hp.
  - rewrite filter_cons_True by (by rewrite Hp). reflexivity.
  - rewrite filter_cons_False by (rewrite Hp; cbn; tauto). reflexivity.
Qed.

Lemma filter_other_phase (p : call → bool) (k : nat) (l : list call) :
  (∀ c, p c = true → phase c ≠ Some k) →
  Forall (λ c, phase c = Some k) l → filter p l = [].
Proof.
  intros Hp Hl. induction Hl as [|c l Hc _ IH]; [done |].
  rewrite filter_cons_False; [done |].
  intros Hpc. apply Is_true_true in Hpc. by apply (Hp c Hpc).
Qed.

Lemma count_other_phase (p : call → bool) (k : nat) (l : list call) :
  (∀ c, p c = true → phase c ≠ Some k) →
  Forall (λ c, phase c = Some k) l → count p l = 0%nat.
Proof. intros Hp Hl. unfold count. by rewrite (filter_other_phase p k). Qed.

(** The shape every log of one step has. *)
Lemma step_log_in_order (actions : list (list float)) (n : nat)
    (physics resets events noise : list call) :
  Forall (λ c, phase c = Some 1%nat) physics →
  filter is_physics_substep physics
    = concat (replicate n [robot_apply_actions; sim_step]) →
  Forall (λ c, phase c = Some 4%nat) resets →
  Forall (λ c, phase c = Some 5%nat) events →
  Forall (λ c, phase c = Some 7%nat) noise →
  let new := robot_process_actions actions
             :: physics ++ robot_get_dones :: task_get_dones
             :: task_compute_rewards :: resets ++ events
             ++ task_get_observations :: noise in
  head new = Some (robot_process_actions actions)
  ∧ count is_process_actions new = 1%nat
  ∧ filter is_physics_substep new
    = concat (replicate n [robot_apply_actions; sim_step])
  ∧ in_step_order new
  ∧ count is_get_dones new = 2%nat
  ∧ count is_compute_rewards new = 1%nat
  ∧ count is_task_reset new = count is_task_reset resets
  ∧ count is_reset_call new = count is_reset_call resets
  ∧ count is_get_observations new = 1%nat
  ∧ count is_debug_vis new = 0%nat.
Proof.
  intros Hphys Hsub Hres Hev Hnoise new. subst new.
  assert (Hcount : ∀ p : call → bool,
    count p (robot_process_actions actions
             :: physics ++ robot_get_dones :: task_get_dones
             :: task_compute_rewards :: resets ++ events
             ++ task_get_observations :: noise)
    = ((if p (robot_process_actions actions) then 1 else 0)
       + (count p physics
          + ((if p robot_get_dones then 1 else 0)
             + ((if p task_get_dones then 1 else 0)
                + ((if p task_compute_rewards then 1 else 0)
                   + (count p resets
                      + (count p events
                         + ((if p task_get_observations then 1 else 0)
                            + count p noise))))))))%nat).
  { intros p.
    by rewrite count_cons, count_app, !count_cons, count_app, count_app, count_cons. }
  split_and!.
  - reflexivity.
  - rewrite Hcount. cbn.
    rewrite (count_other_phase _ 1 physics), (count_other_phase _ 4 resets),
      (count_other_phase _ 5 events), (count_other_phase _ 7 noise);
      try done; by intros [].
  - rewrite filter_cons_False by (cbn; tauto).
    rewrite filter_app, Hsub.
    rewrite !filter_cons_False by (cbn; tauto).
    rewrite !filter_app.
    rewrite filter_cons_False by (cbn; tauto).
    rewrite (filter_other_phase _ 4 resets), (filter_other_phase _ 5 events),
      (filter_other_phase _ 7 noise); try done; try (by intros []).
    cbn [app]. by rewrite (right_id_L [] (++)).
  - apply (ordered_from_in_step_order 0).
    eapply ordered_from_cons; [reflexivity | lia |].
    eapply ordered_from_block; [exact Hphys | lia |].
    eapply ordered_from_cons; [reflexivity | lia |].
    eapply ordered_from_cons; [reflexivity | lia |].
    eapply ordered_from_cons; [reflexivity | lia |].
    eapply ordered_from_block; [exact Hres | lia |].
    eapply ordered_from_block; [exact Hev | lia |].
    eapply ordered_from_cons; [reflexivity | lia |].
    rewrite <- (right_id_L [] (++) noise).
    eapply ordered_from_block; [exact Hnoise | lia |].
    apply ordered_from_nil.
  - rewrite Hcount. cbn.
    rewrite (count_other_phase _ 1 physics), (count_other_phase _ 4 resets),
      (count_other_phase _ 5 events), (count_other_phase _ 7 noise);
      try done; by intros [].
  - rewrite Hcount. cbn.
    rewrite (count_other_phase _ 1 physics), (count_other_phase _ 4 resets),
      (count_other_phase _ 5 events), (count_other_phase _ 7 noise);
      try done; by intros [].
  - rewrite Hcount. cbn.
    rewrite (count_other_phase _ 1 physics),
      (count_other_phase _ 5 events), (count_other_phase _ 7 noise);
      try done; try (by intros []); try (unfold count; lia).
  - rewrite Hcount. cbn.
    rewrite (count_other_phase _ 1 physics),
      (count_other_phase _ 5 events), (count_other_phase _ 7 noise);
      try done; try (by intros []); try (unfold count; lia).
  - rewrite Hcount. cbn.
    rewrite (count_other_phase _ 1 physics), (count_other_phase _ 4 resets),
      (count_other_phase _ 5 events), (count_other_phase _ 7 noise);
      try done; by intros [].
  - rewrite Hcount. cbn.
    rewrite (count_other_phase _ 1 physics), (count_other_phase _ 4 resets),
      (count_other_phase _ 5 events), (count_other_phase _ 7 noise);
      try done; by intros [].
Qed.

(** The index set a reset works on. *)
Lemma resolve_env_ids_eq (env_ids : option (list nat)) (s : Env W) :
  resolve_env_ids env_ids s
  = Some (match env_ids with
          | None => robot__ALL_INDICES s
          | Some ids =>
              if decide (length ids = num_envs s) then robot__ALL_INDICES s else ids
          end, s).
Proof.
  unfold resolve_env_ids. destruct env_ids as [ids|]; [|reflexivity].
  by destruct (decide (length ids = num_envs s)).
Qed.

Ltac exec :=
  unfold mbind, M_bind, invoke_, invoke, gets, set_extras, super__reset_idx,
    mret, M_ret;
  cbn.

Ltac split_calls :=
  repeat match goal with
    | |- context [let '(_, _) := ?e in _] => destruct e eqn:?
    end;
  cbn.

(** *** The methods of the two classes *)

Lemma get_dones_run (get_dones : M W (list bool * list bool)) :
  get_dones = FloatingPlatformGoThroughPosesEnv._get_dones
  ∨ get_dones = LeatherbackPushBlockEnv._get_dones →
  ∀ (s : Env W) (re rc te tc : list bool) (w1 w2 : W) (time_out : list bool),
    robot_api.get_dones (world s) = ((re, rc), w1) →
    task_api.get_dones w1 = ((te, tc), w2) →
    length re = num_envs s → length rc = num_envs s →
    length te = num_envs s → length tc = num_envs s →
    length (episode_length_buf s) = num_envs s →
    tensor_ge (episode_length_buf s) (max_episode_length s - 1) = Some time_out →
    ∃ s' : Env W,
      run get_dones s
        (zip_with orb re te, zip_with orb (zip_with orb rc tc) time_out)
        s' [robot_get_dones; task_get_dones]
      ∧ episode_length_buf s' = episode_length_buf s.
Proof.
  intros Hm s re rc te tc w1 w2 time_out Hr Ht Lre Lrc Lte Ltc Lbuf Hto.
  pose proof (length_tensor_ge _ _ _ Hto) as Lto.
  eexists. unfold run. split_and!.
  - destruct Hm as [-> | ->].
    all: unfold FloatingPlatformGoThroughPosesEnv._get_dones,
           LeatherbackPushBlockEnv._get_dones.
    all: unfold mbind, M_bind, invoke, gets; cbn -[tensor_or tensor_ge].
    all: rewrite Hr; cbn -[tensor_or tensor_ge]; rewrite Ht; cbn -[tensor_or tensor_ge].
    all: rewrite Hto; cbn -[tensor_or tensor_ge].
    all: rewrite (tensor_or_same_shape re te) by congruence; cbn -[tensor_or tensor_ge].
    all: rewrite (tensor_or_same_shape rc tc) by congruence; cbn -[tensor_or tensor_ge].
    all: rewrite tensor_or_same_shape
           by (rewrite length_zip_with_orb; congruence).
    all: reflexivity.
  - cbn. by rewrite <- (assoc_L (++)).
  - by repeat split.
  - reflexivity.
Qed.

Lemma dones_shaped_at (n : nat) (w : W) :
  dones_shaped n →
  ∃ (re rc te tc : list bool) (w1 w2 : W),
    robot_api.get_dones w = ((re, rc), w1)
    ∧ task_api.get_dones w1 = ((te, tc), w2)
    ∧ length re = n ∧ length rc = n ∧ length te = n ∧ length tc = n.
Proof.
  intros Hshape.
  destruct (robot_api.get_dones w) as [[re rc] w1] eqn:Hr.
  destruct (task_api.get_dones w1) as [[te tc] w2] eqn:Ht.
  exists re, rc, te, tc, w1, w2.
  destruct (Hshape w) as (Hre & Hrc & _ & _).
  destruct (Hshape w1) as (_ & _ & Hte & Htc).
  rewrite Hr in Hre, Hrc. rewrite Ht in Hte, Htc. by split_and!.
Qed.

Lemma get_dones_post (get_dones : M W (list bool * list bool)) (s : Env W) :
  get_dones = FloatingPlatformGoThroughPosesEnv._get_dones
  ∨ get_dones = LeatherbackPushBlockEnv._get_dones →
  dones_shaped (num_envs s) → length (episode_length_buf s) = num_envs s →
  - 2 ^ 63 ≤ max_episode_length s - 1 < 2 ^ 64 →
  post get_dones s
    (λ flags s' L, L = [robot_get_dones; task_get_dones]
                   ∧ length flags.1 = num_envs s ∧ length flags.2 = num_envs s).
Proof.
  intros Hm Hshape Hbuf Hmax.
  destruct (dones_shaped_at (num_envs s) (world s) Hshape)
    as (re & rc & te & tc & w1 & w2 & Hr & Ht & Lre & Lrc & Lte & Ltc).
  destruct (proj2 (tensor_ge_is_Some (episode_length_buf s) (max_episode_length s - 1))
              Hmax) as [time_out Hto].
  pose proof (length_tensor_ge _ _ _ Hto) as Lto.
  destruct (get_dones_run get_dones Hm s re rc te tc w1 w2 time_out) as (s' & Hrun & _);
    try done.
  eexists _, s', _. split; [exact Hrun |]. cbn. split_and!; [done | |].
  - rewrite length_zip_with_orb; congruence.
  - rewrite !length_zip_with_orb; try congruence.
    rewrite length_zip_with_orb; congruence.
Qed.

Lemma reset_idx_post (_reset_idx : option (list nat) → M W ()) :
  _reset_idx = FloatingPlatformGoThroughPosesEnv._reset_idx
  ∨ _reset_idx = LeatherbackPushBlockEnv._reset_idx →
  ∀ (env_ids : option (list nat)) (s : Env W),
    post (_reset_idx env_ids) s
      (λ _ s' L, Forall (λ c, phase c = Some 4%nat) L
                 ∧ count is_task_reset L = 1%nat
                 ∧ ∃ resolved : list nat,
                     resolve_env_ids env_ids s = Some (resolved, s)
                     ∧ task_reset resolved ∈ L
                     ∧ super_reset_idx resolved ∈ L).
Proof.
  intros Hm env_ids s.
  pose proof (resolve_env_ids_eq env_ids s) as Hres.
  match type of Hres with _ = Some (?r, _) => set (resolved := r) in * end.
  destruct Hm as [-> | ->].
  - unfold FloatingPlatformGoThroughPosesEnv._reset_idx, post, run.
    unfold mbind at 1, M_bind at 1. rewrite Hres.
    exec. split_calls.
    eexists _, _, [super_reset_idx resolved; task_reset resolved].
    split_and!; try done.
    + cbn. by rewrite <- !(assoc_L (++)).
    + by repeat constructor.
    + exists resolved. split_and!; [done | set_solver | set_solver].
  - unfold LeatherbackPushBlockEnv._reset_idx, post, run.
    unfold mbind at 1, M_bind at 1. rewrite Hres.
    exec. split_calls.
    eexists _, _,
      [task_reset_logs resolved (episode_length_buf s); task_compute_logs;
       robot_reset_logs resolved (episode_length_buf s); robot_compute_logs;
       super_reset_idx resolved; task_reset resolved].
    split_and!; try done.
    + cbn. by rewrite <- !(assoc_L (++)).
    + by repeat constructor.
    + exists resolved. split_and!; [done | set_solver | set_solver].
Qed.

(** *** The physics loop and the step *)

Section Generic.
Variable self : DirectRLEnv.subclass W.

Hypothesis pre_physics_step_post : ∀ (actions : list (list float)) (s : Env W),
  post (DirectRLEnv._pre_physics_step self actions) s
    (λ _ s' L, L = [robot_process_actions actions]
               ∧ episode_length_buf s' = episode_length_buf s).

Hypothesis apply_action_post : ∀ s : Env W,
  post (DirectRLEnv._apply_action self) s
    (λ _ s' L, L = [robot_apply_actions]
               ∧ episode_length_buf s' = episode_length_buf s).

Hypothesis get_dones_post' : ∀ s : Env W,
  dones_shaped (num_envs s) → length (episode_length_buf s) = num_envs s →
  - 2 ^ 63 ≤ max_episode_length s - 1 < 2 ^ 64 →
  post (DirectRLEnv._get_dones self) s
    (λ flags s' L, L = [robot_get_dones; task_get_dones]
                   ∧ length flags.1 = num_envs s ∧ length flags.2 = num_envs s).

Hypothesis get_rewards_post : ∀ s : Env W,
  post (DirectRLEnv._get_rewards self) s (λ _ _ L, L = [task_compute_rewards]).

Hypothesis reset_idx_post' : ∀ (env_ids : option (list nat)) (s : Env W),
  post (DirectRLEnv._reset_idx self env_ids) s
    (λ _ s' L, Forall (λ c, phase c = Some 4%nat) L
               ∧ count is_task_reset L = 1%nat
               ∧ ∃ resolved : list nat,
                   resolve_env_ids env_ids s = Some (resolved, s)
                   ∧ task_reset resolved ∈ L
                   ∧ super_reset_idx resolved ∈ L).

Hypothesis get_observations_post : ∀ s : Env W,
  post (DirectRLEnv._get_observations self) s (λ _ _ L, L = [task_get_observations]).

Lemma physics_loop_post (n : nat) (s : Env W) :
  post (DirectRLEnv.physics_loop self n) s
    (λ _ s' L, episode_length_buf s' = episode_length_buf s
               ∧ Forall (λ c, phase c = Some 1%nat) L
               ∧ filter is_physics_substep L
                 = concat (replicate n [robot_apply_actions; sim_step])).
Proof.
  revert s. induction n as [|n IH]; intros s; cbn [DirectRLEnv.physics_loop].
  { apply post_mret. split_and!; [done | constructor | done]. }
  eapply post_bind; [apply apply_action_post |].
  intros _ s1 L1 _ [-> Hb1]. cbn beta.
  eapply post_bind; [apply post_invoke__sp |].
  intros _ s2 L2 _ (-> & Hb2 & _ & _). cbn beta.
  eapply post_bind; [apply post_invoke__sp |].
  intros _ s3 L3 _ (-> & Hb3 & _ & _). cbn beta.
  eapply post_bind; [apply post_gets_sp |].
  intros rendering s4 L4 _ (_ & -> & ->). cbn beta.
  eapply post_bind; [apply post_when_invoke_ |].
  intros _ s5 L5 _ (-> & Hb5). cbn beta.
  eapply post_bind; [apply post_invoke__sp |].
  intros _ s6 L6 _ (-> & Hb6 & _ & _). cbn beta.
  eapply post_mono; [apply IH |].
  intros _ s7 L7 _ (Hb7 & Hphase & Hsub) _ _ _ _ _ _.
  split_and!.
  - congruence.
  - destruct rendering; cbn [app]; by repeat constructor.
  - destruct rendering; cbn [app];
      repeat first [ rewrite filter_cons_True by (cbn; tauto)
                   | rewrite filter_cons_False by (cbn; tauto) ];
      by rewrite Hsub.
Qed.

Lemma reset_block_post (reset_env_ids : list nat) (s : Env W) :
  post (DirectRLEnv.when (bool_decide (0 < length reset_env_ids)%nat)
          (DirectRLEnv._reset_idx self (Some reset_env_ids);;
           rtx ← gets (λ s, host.has_rtx_sensors (world s));
           DirectRLEnv.when rtx (invoke_ scene_render host.render_scene))) s
    (λ _ _ L, Forall (λ c, phase c = Some 4%nat) L
              ∧ (reset_env_ids = [] → L = [])
              ∧ (reset_env_ids ≠ [] →
                 count is_task_reset L = 1%nat
                 ∧ ∃ resolved : list nat,
                     resolve_env_ids (Some reset_env_ids) s = Some (resolved, s)
                     ∧ task_reset resolved ∈ L
                     ∧ super_reset_idx resolved ∈ L)).
Proof.
  apply post_when; intros Hb.
  - apply bool_decide_eq_true in Hb.
    eapply post_bind; [apply reset_idx_post' |].
    intros _ s1 L1 _ (Hphase & Hcount & resolved & Hres & Htask & Hsuper). cbn beta.
    eapply post_bind; [apply post_gets_sp |].
    intros rtx s2 L2 _ (_ & -> & ->). cbn beta.
    eapply post_mono; [apply post_when_invoke_ |].
    intros _ s3 L3 _ (-> & _) _ _. cbn [app]. split_and!.
    + apply Forall_app. split; [done |]. destruct rtx; by repeat constructor.
    + intros ->. cbn in Hb. lia.
    + intros _. split.
      * rewrite count_app, Hcount. destruct rtx; vm_compute; lia.
      * exists resolved. split_and!; [done | |]; apply elem_of_app; by left.
  - apply bool_decide_eq_false in Hb. split_and!; [constructor | done |].
    intros Hne. destruct reset_env_ids; [done | cbn in Hb; lia].
Qed.

Lemma step_post (actions : list (list float)) (s : Env W) :
  dones_shaped (num_envs s) → length (episode_length_buf s) = num_envs s →
  - 2 ^ 63 ≤ max_episode_length s - 1 < 2 ^ 64 →
  post (DirectRLEnv.step self actions) s
    (λ result s' new,
       ∃ (physics resets events noise : list call) (s_d s_d' : Env W)
         (reset_buf : list bool),
         new = robot_process_actions actions
               :: physics ++ robot_get_dones :: task_get_dones
               :: task_compute_rewards :: resets ++ events
               ++ task_get_observations :: noise
         ∧ Forall (λ c, phase c = Some 1%nat) physics
         ∧ filter is_physics_substep physics
           = concat (replicate (cfg_decimation s) [robot_apply_actions; sim_step])
         ∧ Forall (λ c, phase c = Some 4%nat) resets
         ∧ Forall (λ c, phase c = Some 5%nat) events
         ∧ Forall (λ c, phase c = Some 7%nat) noise
         ∧ calls s_d = calls s ++ robot_process_actions actions :: physics
         ∧ episode_length_buf s_d = tensor_add (episode_length_buf s) 1
         ∧ DirectRLEnv._get_dones self s_d = Some ((result.1.1.2, result.1.2), s_d')
         ∧ length result.1.1.2 = num_envs s
         ∧ length result.1.2 = num_envs s
         ∧ tensor_or result.1.1.2 result.1.2 = Some reset_buf
         ∧ (nonzero reset_buf = [] → resets = [])
         ∧ (nonzero reset_buf ≠ [] →
            count is_task_reset resets = 1%nat
            ∧ ∃ resolved : list nat,
                resolved = (if decide (length (nonzero reset_buf) = num_envs s)
                            then robot__ALL_INDICES s else nonzero reset_buf)
                ∧ task_reset resolved ∈ resets
                ∧ super_reset_idx resolved ∈ resets)).
Proof.
  intros Hshape Hbuf Hmax. unfold DirectRLEnv.step.
  eapply post_bind; [apply post_eq, pre_physics_step_post |].
  intros _ s1 L1 F1 (_ & Hc1 & -> & Hb1). cbn beta.
  eapply post_bind; [apply post_gets_sp |].
  intros decimation s2 L2 _ (-> & -> & ->). cbn beta.
  eapply post_bind; [apply post_eq, physics_loop_post |].
  intros _ s3 L3 F3 (_ & Hc3 & Hb3 & Hphys & Hsub). cbn beta.
  pose proof (frame_trans _ _ _ F1 F3) as F03.
  eapply post_bind; [apply post_add_episode_length_buf |].
  intros _ s3' L3' F3' (-> & Hb3' & Hc3'). cbn beta.
  pose proof (frame_trans _ _ _ F03 F3') as F0d.
  assert (Hn : num_envs s3' = num_envs s) by apply F0d.
  assert (Hm : max_episode_length s3' = max_episode_length s) by apply F0d.
  eapply post_bind.
  { apply post_eq, get_dones_post'.
    - by rewrite Hn.
    - rewrite Hb3', length_tensor_add. congruence.
    - by rewrite Hm. }
  intros [terminated time_outs] s4 L4 F4 (Hrun4 & _ & -> & Lt & Lo). cbn beta iota.
  cbn [fst snd] in Lt, Lo.
  eapply post_bind; [apply get_rewards_post |].
  intros reward s5 L5 F5 ->. cbn beta.
  eapply post_bind.
  { apply (post_lift_option _ (zip_with orb terminated time_outs)).
    apply tensor_or_same_shape. congruence. }
  intros reset_buf s6 L6 _ (-> & -> & ->). cbn beta zeta.
  pose proof (frame_trans _ _ _ (frame_trans _ _ _ F0d F4) F5) as F05.
  eapply post_bind; [apply reset_block_post |].
  intros _ s7 L7 F7 (Hres & Hnil & Hcons). cbn beta.
  eapply post_bind; [apply post_gets_sp |].
  intros events s8 L8 _ (_ & -> & ->). cbn beta.
  eapply post_bind; [apply post_when_invoke_ |].
  intros _ s9 L9 F9 (-> & _). cbn beta.
  eapply post_bind; [apply get_observations_post |].
  intros obs s10 L10 F10 ->. cbn beta.
  eapply post_bind; [apply post_gets_sp |].
  intros noise s11 L11 _ (_ & -> & ->). cbn beta.
  eapply (post_bind _ _ _ (λ _ _ L, L = if noise then [add_noise] else [])).
  { destruct noise.
    - eapply post_mono; [apply post_invoke_sp |]. by intros ? ? ? _ (_ & -> & _).
    - by apply post_mret. }
  intros obs' s12 L12 F12 ->. cbn beta.
  eapply post_bind; [apply post_gets_sp |].
  intros extras s13 L13 _ (_ & -> & ->). cbn beta.
  apply post_mret. intros _ _ _ _ _ _ _ _ _ _ _ _ _ _.
  cbn [app]. rewrite !(right_id_L [] (++)).
  exists L3, L7, (if events then [event_manager_apply] else []),
    (if noise then [add_noise] else []), s3', s4, (zip_with orb terminated time_outs).
  cbn [fst snd].
  assert (Hdec : cfg_decimation s1 = cfg_decimation s) by apply F1.
  split_and!; try done.
  - by rewrite <- Hdec.
  - destruct events; by repeat constructor.
  - destruct noise; by repeat constructor.
  - rewrite Hc3', Hc3, Hc1. by rewrite <- (assoc_L (++)).
  - rewrite Hb3'. congruence.
  - congruence.
  - congruence.
  - apply tensor_or_same_shape. congruence.
  - intros Hne. destruct (Hcons Hne) as (Hcount & resolved & Hres' & Htask & Hsuper).
    split; [done |]. exists resolved. split_and!; [| done | done].
    rewrite resolve_env_ids_eq in Hres'. apply (inj Some) in Hres'.
    apply (f_equal fst) in Hres'. cbn in Hres'. rewrite <- Hres'.
    destruct F05 as (_ & _ & -> & _ & ->). done.
Qed.
End Generic.

(** *** What the environments do *)

(** C1: in both environments, when [max_episode_length - 1] is a signed
    64-bit integer, [_get_dones] returns the pair
    (early_termination, clean_termination): entry by entry,
    early_termination is the OR of the robot's and the task's
    early-termination flags, and clean_termination the OR of the robot's
    and the task's clean-termination flags and of the time-out flag,
    which is set exactly when the entry of episode_length_buf is at least
    max_episode_length - 1. *)
Theorem get_dones_flags (get_dones : M W (list bool * list bool)) :
  get_dones = FloatingPlatformGoThroughPosesEnv._get_dones
  ∨ get_dones = LeatherbackPushBlockEnv._get_dones →
  ∀ (s : Env W) (re rc te tc : list bool) (w1 w2 : W),
    robot_api.get_dones (world s) = ((re, rc), w1) →
    task_api.get_dones w1 = ((te, tc), w2) →
    length re = num_envs s → length rc = num_envs s →
    length te = num_envs s → length tc = num_envs s →
    length (episode_length_buf s) = num_envs s →
    - 2 ^ 63 ≤ max_episode_length s - 1 < 2 ^ 63 →
    ∃ (early_termination clean_termination : list bool) (s' : Env W),
      get_dones s = Some ((early_termination, clean_termination), s')
      ∧ length early_termination = num_envs s
      ∧ length clean_termination = num_envs s
      ∧ ∀ (i : nat) (a b c d : bool) (l : Z),
          re !! i = Some a → te !! i = Some b →
          rc !! i = Some c → tc !! i = Some d →
          episode_length_buf s !! i = Some l →
          early_termination !! i = Some (a || b)
          ∧ clean_termination !! i
            = Some (c || d || (l >=? max_episode_length s - 1)).
Proof.
  intros Hm s re rc te tc w1 w2 Hr Ht Lre Lrc Lte Ltc Lbuf Hmax.
  pose proof (tensor_ge_signed (episode_length_buf s) _ Hmax) as Hto.
  pose proof (length_tensor_ge _ _ _ Hto) as Lto.
  destruct (get_dones_run get_dones Hm s re rc te tc w1 w2 _ Hr Ht Lre Lrc Lte Ltc
              Lbuf Hto) as (s' & Hrun & _).
  eexists _, _, s'. split_and!.
  - apply Hrun.
  - rewrite length_zip_with_orb; congruence.
  - rewrite !length_zip_with_orb; try congruence.
    rewrite length_zip_with_orb; congruence.
  - intros i a b c d l Ha Hb Hc Hd Hl. split.
    + rewrite lookup_zip_with, Ha, Hb. reflexivity.
    + rewrite !lookup_zip_with, Hc, Hd.
      rewrite list_lookup_fmap, Hl. reflexivity.
Qed.

(** C3: in both environments, [_reset_idx] works on the robot's
    [_ALL_INDICES] when env_ids is None or has as many entries as there
    are environments, and on env_ids itself otherwise; in every case the
    task's reset is called exactly once, with that index set, after the
    base class's reset on the same set, and it is the last call made. *)
Theorem reset_idx_resets_task (_reset_idx : option (list nat) → M W ()) :
  _reset_idx = FloatingPlatformGoThroughPosesEnv._reset_idx
  ∨ _reset_idx = LeatherbackPushBlockEnv._reset_idx →
  ∀ (env_ids : option (list nat)) (s : Env W),
  ∃ (resolved : list nat) (s' : Env W) (new : list call) (w : W),
    _reset_idx env_ids s = Some ((), s')
    ∧ (env_ids = None → resolved = robot__ALL_INDICES s)
    ∧ (∀ ids, env_ids = Some ids → length ids = num_envs s →
         resolved = robot__ALL_INDICES s)
    ∧ (∀ ids, env_ids = Some ids → length ids ≠ num_envs s → resolved = ids)
    ∧ calls s' = calls s ++ new
    ∧ count is_task_reset new = 1%nat
    ∧ last new = Some (task_reset resolved)
    ∧ super_reset_idx resolved ∈ new
    ∧ world s' = task_api.reset resolved w.
Proof.
  intros Hm env_ids s.
  set (resolved := match env_ids with
                   | None => robot__ALL_INDICES s
                   | Some ids =>
                       if decide (length ids = num_envs s)
                       then robot__ALL_INDICES s else ids
                   end).
  assert (Hnone : env_ids = None → resolved = robot__ALL_INDICES s).
  { intros ->. reflexivity. }
  assert (Hall : ∀ ids, env_ids = Some ids → length ids = num_envs s →
                        resolved = robot__ALL_INDICES s).
  { intros ids -> Hlen. unfold resolved. by rewrite decide_True. }
  assert (Hids : ∀ ids, env_ids = Some ids → length ids ≠ num_envs s →
                        resolved = ids).
  { intros ids -> Hlen. unfold resolved. by rewrite decide_False. }
  exists resolved.
  destruct Hm as [-> | ->].
  - unfold FloatingPlatformGoThroughPosesEnv._reset_idx.
    unfold mbind at 1, M_bind at 1. rewrite resolve_env_ids_eq. fold resolved.
    exec. split_calls.
    eexists. exists [super_reset_idx resolved; task_reset resolved]. eexists.
    split_and!; try done.
    + cbn. by rewrite <- !(assoc_L (++)).
    + set_solver.
  - unfold LeatherbackPushBlockEnv._reset_idx.
    unfold mbind at 1, M_bind at 1. rewrite resolve_env_ids_eq. fold resolved.
    exec. split_calls.
    eexists.
    exists [task_reset_logs resolved (episode_length_buf s); task_compute_logs;
            robot_reset_logs resolved (episode_length_buf s); robot_compute_logs;
            super_reset_idx resolved; task_reset resolved].
    eexists.
    split_and!; try done.
    + cbn. by rewrite <- !(assoc_L (++)).
    + set_solver.
Qed.
(** C4: [LeatherbackPushBlockEnv._reset_idx] resets the task logs and
    the robot logs for the index set it works on and stores the union of
    the task's and the robot's computed logs under the "log" key of
    extras; [FloatingPlatformGoThroughPosesEnv._reset_idx] makes no
    logging call and leaves extras as it was. *)
Theorem reset_idx_logging :
  (∀ (env_ids : option (list nat)) (s : Env W),
    ∃ (s' : Env W) (new : list call),
      FloatingPlatformGoThroughPosesEnv._reset_idx env_ids s = Some ((), s')
      ∧ calls s' = calls s ++ new
      ∧ count is_log_call new = 0%nat
      ∧ extras s' = extras s)
  ∧ (∀ (env_ids : option (list nat)) (s : Env W),
    ∃ (resolved : list nat) (s' : Env W) (new : list call)
      (task_extras robot_extras : gmap string float) (w1 w2 : W),
      LeatherbackPushBlockEnv._reset_idx env_ids s = Some ((), s')
      ∧ resolve_env_ids env_ids s = Some (resolved, s)
      ∧ calls s' = calls s ++ new
      ∧ take 4 new = [task_reset_logs resolved (episode_length_buf s);
                      task_compute_logs;
                      robot_reset_logs resolved (episode_length_buf s);
                      robot_compute_logs]
      ∧ task_api.compute_logs
          (task_api.reset_logs resolved (episode_length_buf s) (world s))
        = (task_extras, w1)
      ∧ robot_api.compute_logs
          (robot_api.reset_logs resolved (episode_length_buf s) w1)
        = (robot_extras, w2)
      ∧ extras s' = <["log" := robot_extras ∪ task_extras]> (extras s)).
Proof.
  split; intros env_ids s.
  - unfold FloatingPlatformGoThroughPosesEnv._reset_idx.
    pose proof (resolve_env_ids_eq env_ids s) as Hres.
    match type of Hres with _ = Some (?r, _) => set (resolved := r) in * end.
    unfold mbind at 1, M_bind at 1. rewrite Hres.
    exec. split_calls.
    eexists. exists [super_reset_idx resolved; task_reset resolved].
    split_and!; try done.
    cbn. by rewrite <- !(assoc_L (++)).
  - unfold LeatherbackPushBlockEnv._reset_idx.
    pose proof (resolve_env_ids_eq env_ids s) as Hres.
    match type of Hres with _ = Some (?r, _) => set (resolved := r) in * end.
    unfold mbind at 1, M_bind at 1. rewrite Hres.
    exec. split_calls.
    exists resolved. eexists.
    exists [task_reset_logs resolved (episode_length_buf s); task_compute_logs;
            robot_reset_logs resolved (episode_length_buf s); robot_compute_logs;
            super_reset_idx resolved; task_reset resolved].
    do 4 eexists.
    split_and!; try done.
    + cbn. by rewrite <- !(assoc_L (++)).
    + cbn. unfold dict_update. by rewrite (right_id_L ∅ (∪)).
Qed.

Lemma debug_vis_callback_off (callback : M W ()) :
  callback = FloatingPlatformGoThroughPosesEnv._debug_vis_callback
  ∨ callback = LeatherbackPushBlockEnv._debug_vis_callback →
  ∀ (n : nat) (s : Env W),
    cfg_debug_vis s = false → iterate n callback s = Some ((), s).
Proof.
  intros Hm n. induction n as [|n IH]; intros s Hoff; [reflexivity |].
  cbn [iterate]. unfold mbind at 1, M_bind at 1.
  assert (Hone : callback s = Some ((), s)).
  { destruct Hm as [-> | ->].
    all: unfold FloatingPlatformGoThroughPosesEnv._debug_vis_callback,
           LeatherbackPushBlockEnv._debug_vis_callback.
    all: exec; by rewrite Hoff. }
  rewrite Hone. by apply IH.
Qed.

Lemma debug_vis_callback_on (callback : M W ()) :
  callback = FloatingPlatformGoThroughPosesEnv._debug_vis_callback
  ∨ callback = LeatherbackPushBlockEnv._debug_vis_callback →
  ∀ (n : nat) (s : Env W),
    cfg_debug_vis s = true →
    ∃ s' : Env W,
      iterate n callback s = Some ((), s')
      ∧ calls s' = calls s ++ replicate n task_update_task_visualization
      ∧ world s' = Nat.iter n task_api.update_task_visualization (world s)
      ∧ extras s' = extras s
      ∧ episode_length_buf s' = episode_length_buf s.
Proof.
  intros Hm n. induction n as [|n IH]; intros s Hon.
  { exists s. split_and!; try done. cbn. by rewrite (right_id_L [] (++)). }
  cbn [iterate]. unfold mbind at 1, M_bind at 1.
  assert (Hone : ∃ s1, callback s = Some ((), s1)
                       ∧ cfg_debug_vis s1 = true
                       ∧ calls s1 = calls s ++ [task_update_task_visualization]
                       ∧ world s1 = task_api.update_task_visualization (world s)
                       ∧ extras s1 = extras s
                       ∧ episode_length_buf s1 = episode_length_buf s).
  { destruct Hm as [-> | ->].
    all: unfold FloatingPlatformGoThroughPosesEnv._debug_vis_callback,
           LeatherbackPushBlockEnv._debug_vis_callback.
    all: exec; rewrite Hon; eexists; split_and!; done. }
  destruct Hone as (s1 & -> & Hon1 & Hcalls1 & Hworld1 & Hextras1 & Hbuf1).
  destruct (IH s1 Hon1) as (s' & Hrun & Hcalls & Hworld & Hextras & Hbuf).
  exists s'. split_and!; [done | | | congruence | congruence].
  - rewrite Hcalls, Hcalls1. cbn [replicate]. by rewrite <- (assoc_L (++)).
  - rewrite Hworld, Hworld1. by rewrite Nat.iter_succ_r.
Qed.

(** C8: in both environments, [_set_debug_vis_impl] with a false flag
    makes no call and changes nothing, and with [cfg.debug_vis] false no
    number of [_debug_vis_callback] invocations changes anything; with a
    true flag [_set_debug_vis_impl] makes the one call that creates the
    task visualization, and with [cfg.debug_vis] true each
    [_debug_vis_callback] invocation makes one call that updates it. *)
Theorem debug_vis_on_demand (set_debug_vis_impl : bool → M W ()) (callback : M W ()) :
  (set_debug_vis_impl = FloatingPlatformGoThroughPosesEnv._set_debug_vis_impl
   ∧ callback = FloatingPlatformGoThroughPosesEnv._debug_vis_callback)
  ∨ (set_debug_vis_impl = LeatherbackPushBlockEnv._set_debug_vis_impl
     ∧ callback = LeatherbackPushBlockEnv._debug_vis_callback) →
  ∀ s : Env W,
    set_debug_vis_impl false s = Some ((), s)
    ∧ (cfg_debug_vis s = false →
       ∀ n : nat, iterate n callback s = Some ((), s))
    ∧ (∃ s' : Env W,
         set_debug_vis_impl true s = Some ((), s')
         ∧ calls s' = calls s ++ [task_create_task_visualization]
         ∧ world s' = task_api.create_task_visualization (world s)
         ∧ extras s' = extras s
         ∧ episode_length_buf s' = episode_length_buf s)
    ∧ (cfg_debug_vis s = true →
       ∀ n : nat, ∃ s' : Env W,
         iterate n callback s = Some ((), s')
         ∧ calls s' = calls s ++ replicate n task_update_task_visualization
         ∧ world s' = Nat.iter n task_api.update_task_visualization (world s)
         ∧ extras s' = extras s
         ∧ episode_length_buf s' = episode_length_buf s).
Proof.
  intros Hm s.
  assert (Hcb : callback = FloatingPlatformGoThroughPosesEnv._debug_vis_callback
                ∨ callback = LeatherbackPushBlockEnv._debug_vis_callback).
  { destruct Hm as [[_ ->] | [_ ->]]; auto. }
  split_and!.
  - destruct Hm as [[-> _] | [-> _]]; reflexivity.
  - intros Hoff n. by apply debug_vis_callback_off.
  - destruct Hm as [[-> _] | [-> _]]; cbn; exec; eexists; split_and!; done.
  - intros Hon n. by apply debug_vis_callback_on.
Qed.

Lemma class_methods_post (self : DirectRLEnv.subclass W) :
  self = FloatingPlatformGoThroughPosesEnv_class
  ∨ self = LeatherbackPushBlockEnv_class →
  (∀ (actions : list (list float)) (s : Env W),
      post (DirectRLEnv._pre_physics_step self actions) s
        (λ _ s' L, L = [robot_process_actions actions]
                   ∧ episode_length_buf s' = episode_length_buf s))
  ∧ (∀ s : Env W,
      post (DirectRLEnv._apply_action self) s
        (λ _ s' L, L = [robot_apply_actions]
                   ∧ episode_length_buf s' = episode_length_buf s))
  ∧ (∀ s : Env W,
      post (DirectRLEnv._get_rewards self) s (λ _ _ L, L = [task_compute_rewards]))
  ∧ (∀ s : Env W,
      post (DirectRLEnv._get_observations self) s
        (λ _ _ L, L = [task_get_observations])).
Proof.
  intros Hm. split_and!.
  - intros actions s. destruct Hm as [-> | ->]; cbn.
    all: eapply post_mono; [apply post_invoke__sp |].
    all: by intros _ s' L _ (-> & Hbuf & _).
  - intros s. destruct Hm as [-> | ->]; cbn.
    all: eapply post_mono; [apply post_invoke__sp |].
    all: by intros _ s' L _ (-> & Hbuf & _).
  - intros s. destruct Hm as [-> | ->]; cbn.
    all: eapply post_mono; [apply post_invoke_sp |].
    all: by intros ? s' L _ (_ & -> & _).
  - intros s. destruct Hm as [-> | ->]; cbn.
    all: eapply post_bind; [apply post_invoke_sp |].
    all: intros obs s1 L1 _ (_ & -> & _); cbn beta.
    all: apply post_mret; by intros _.
Qed.

(** C7: one step of either environment, run by the host's loop, makes
    its calls in this order: the robot's process_actions first and once;
    then the physics substeps, each opened by one apply_actions before
    the simulator steps, as many as the decimation; then the dones, asked
    with the step counted in episode_length_buf, then the rewards, then
    the calls of a reset, and the observations after all of these; no
    debug-visualization call is part of the step.  A reset is made
    exactly when the early or the clean flag of some index is set: the
    task is then reset once, after the base class, for the indices whose
    flag is set, or for the robot's [_ALL_INDICES] when these are as many
    as the environments; with no flag set the step makes no call of a
    reset. *)
Theorem one_step_call_order (self : DirectRLEnv.subclass W) :
  self = FloatingPlatformGoThroughPosesEnv_class
  ∨ self = LeatherbackPushBlockEnv_class →
  ∀ (actions : list (list float)) (s : Env W),
    dones_shaped (num_envs s) →
    length (episode_length_buf s) = num_envs s →
    - 2 ^ 63 ≤ max_episode_length s - 1 < 2 ^ 64 →
    ∃ (obs : gmap string (list (list float))) (reward : list float)
      (terminated time_outs reset_buf : list bool)
      (extras' : gmap string (gmap string float)) (s' : Env W) (new : list call),
      DirectRLEnv.step self actions s
      = Some ((obs, reward, terminated, time_outs, extras'), s')
      ∧ calls s' = calls s ++ new
      ∧ head new = Some (robot_process_actions actions)
      ∧ count is_process_actions new = 1%nat
      ∧ filter is_physics_substep new
        = concat (replicate (cfg_decimation s) [robot_apply_actions; sim_step])
      ∧ in_step_order new
      ∧ count is_get_dones new = 2%nat
      ∧ count is_compute_rewards new = 1%nat
      ∧ (count is_task_reset new ≤ 1)%nat
      ∧ count is_get_observations new = 1%nat
      ∧ count is_debug_vis new = 0%nat
      ∧ (∃ (before after : list call) (s_d s_d' : Env W),
           new = before ++ robot_get_dones :: task_get_dones :: after
           ∧ calls s_d = calls s ++ before
           ∧ episode_length_buf s_d = tensor_add (episode_length_buf s) 1
           ∧ DirectRLEnv._get_dones self s_d = Some ((terminated, time_outs), s_d'))
      ∧ length terminated = num_envs s
      ∧ length time_outs = num_envs s
      ∧ tensor_or terminated time_outs = Some reset_buf
      ∧ (∀ i : nat,
           i ∈ nonzero reset_buf
           ↔ terminated !! i = Some true ∨ time_outs !! i = Some true)
      ∧ (nonzero reset_buf = [] →
           count is_reset_call new = 0%nat ∧ count is_task_reset new = 0%nat)
      ∧ (nonzero reset_buf ≠ [] →
           count is_task_reset new = 1%nat
           ∧ ∃ resolved : list nat,
               (length (nonzero reset_buf) = num_envs s →
                resolved = robot__ALL_INDICES s)
               ∧ (length (nonzero reset_buf) ≠ num_envs s →
                  resolved = nonzero reset_buf)
               ∧ task_reset resolved ∈ new
               ∧ super_reset_idx resolved ∈ new).
Proof.
  intros Hm actions s Hshape Hbuf Hmax.
  destruct (class_methods_post self Hm) as (Hpre & Happly & Hrew & Hobs).
  assert (Hdones : ∀ s0 : Env W,
    dones_shaped (num_envs s0) → length (episode_length_buf s0) = num_envs s0 →
    - 2 ^ 63 ≤ max_episode_length s0 - 1 < 2 ^ 64 →
    post (DirectRLEnv._get_dones self) s0
      (λ flags s' L, L = [robot_get_dones; task_get_dones]
                     ∧ length flags.1 = num_envs s0
                     ∧ length flags.2 = num_envs s0)).
  { intros s0 Hshape0 Hbuf0 Hmax0. apply get_dones_post; [|done|done|done].
    destruct Hm as [-> | ->]; auto. }
  assert (Hreset : ∀ (env_ids : option (list nat)) (s0 : Env W),
    post (DirectRLEnv._reset_idx self env_ids) s0
      (λ _ s' L, Forall (λ c, phase c = Some 4%nat) L
                 ∧ count is_task_reset L = 1%nat
                 ∧ ∃ resolved : list nat,
                     resolve_env_ids env_ids s0 = Some (resolved, s0)
                     ∧ task_reset resolved ∈ L
                     ∧ super_reset_idx resolved ∈ L)).
  { intros env_ids s0. apply reset_idx_post. destruct Hm as [-> | ->]; auto. }
  destruct (step_post self Hpre Happly Hdones Hrew Hreset Hobs actions s
              Hshape Hbuf Hmax)
    as ([[[[obs reward] terminated] time_outs] extras'] & s' & new
        & (Hrun & Hcalls & _) & Hprops).
  cbn [fst snd] in Hprops.
  destruct Hprops as (physics & resets & events & noise & s_d & s_d' & reset_buf
    & Hnew & Hphys & Hsub & Hres & Hev & Hnoise & Hcd & Hbd & Hd & Lt & Lo
    & Hor & Hnil & Hcons).
  destruct (step_log_in_order actions (cfg_decimation s) physics resets events noise
              Hphys Hsub Hres Hev Hnoise)
    as (Hhead & Hproc & Hsubs & Horder & Hgd & Hcr & Htr & Hrc & Hgo & Hdv).
  rewrite <- Hnew in Hhead, Hproc, Hsubs, Horder, Hgd, Hcr, Htr, Hrc, Hgo, Hdv.
  assert (Hin : ∀ c : call, c ∈ resets → c ∈ new).
  { intros c Hc. rewrite Hnew.
    apply elem_of_cons; right. apply elem_of_app; right.
    do 3 (apply elem_of_cons; right). apply elem_of_app; by left. }
  assert (Hbuf' : reset_buf = zip_with orb terminated time_outs).
  { rewrite tensor_or_same_shape in Hor by congruence. congruence. }
  exists obs, reward, terminated, time_outs, reset_buf, extras', s', new.
  split_and!; try done.
  - rewrite Htr. destruct (decide (nonzero reset_buf = [])) as [Hz | Hnz].
    + rewrite (Hnil Hz). unfold count. cbn. lia.
    + destruct (Hcons Hnz) as [-> _]. lia.
  - exists (robot_process_actions actions :: physics),
      (task_compute_rewards :: resets ++ events ++ task_get_observations :: noise),
      s_d, s_d'.
    split_and!; try done.
  - intros i. rewrite elem_of_nonzero, Hbuf'.
    apply lookup_zip_with_orb_true. congruence.
  - intros Hz. rewrite Hrc, Htr, (Hnil Hz). done.
  - intros Hnz. destruct (Hcons Hnz) as (Hone & resolved & Hresolved & Htask & Hsuper).
    split; [by rewrite Htr |].
    exists resolved. split_and!; [| | by apply Hin | by apply Hin].
    + intros Hlen. rewrite Hresolved. by rewrite decide_True.
    + intros Hlen. rewrite Hresolved. by rewrite decide_False.
Qed.
End EnvProps.

(** ** The theorems at work in the small world *)

Section Demo.
Import demo.

Lemma get_dones_flags_witness :
  robot_api.get_dones (world (env true))
    = (([false; true], [false; false]), world (env true))
  ∧ task_api.get_dones (world (env true))
    = (([false; false], [true; false]), world (env true))
  ∧ length (episode_length_buf (env true)) = num_envs (env true)
  ∧ - 2 ^ 63 ≤ max_episode_length (env true) - 1 < 2 ^ 63
  ∧ ∃ (early_termination clean_termination : list bool) (s' : Env store),
      LeatherbackPushBlockEnv._get_dones (env true)
        = Some ((early_termination, clean_termination), s')
      ∧ early_termination !! 1%nat = Some (true || false)
      ∧ clean_termination !! 1%nat = Some (false || false || (299 >=? 300 - 1)).
Proof.
  assert (Hr : robot_api.get_dones (world (env true))
               = (([false; true], [false; false]), world (env true)))
    by reflexivity.
  assert (Ht : task_api.get_dones (world (env true))
               = (([false; false], [true; false]), world (env true)))
    by reflexivity.
  assert (Hbuf : length (episode_length_buf (env true)) = num_envs (env true))
    by reflexivity.
  assert (Hmax : - 2 ^ 63 ≤ max_episode_length (env true) - 1 < 2 ^ 63)
    by (cbn; lia).
  refine (conj Hr (conj Ht (conj Hbuf (conj Hmax _)))).
  destruct (get_dones_flags LeatherbackPushBlockEnv._get_dones
              (or_intror eq_refl) (env true)
              [false; true] [false; false] [false; false] [true; false]
              (world (env true)) (world (env true))
              Hr Ht eq_refl eq_refl eq_refl eq_refl Hbuf Hmax)
    as (early & clean & s' & Hrun & _ & _ & Hflags).
  exists early, clean, s'.
  destruct (Hflags 1%nat true false false false 299
              eq_refl eq_refl eq_refl eq_refl eq_refl) as [Hearly Hclean].
  split_and!; [exact Hrun | exact Hearly | exact Hclean].
Defined.

(** With [max_episode_length = 2^63 + 1] the bound [2^63] is read as
    [-2^63]: the second environment, at step 2 and with no clean flag of
    the robot or the task, is reported as timed out, although 2 is below
    the bound. *)
Lemma get_dones_flags_counterexample :
  robot_api.get_dones (world long_env)
    = (([false; true], [false; false]), world long_env)
  ∧ task_api.get_dones (world long_env)
    = (([false; false], [true; false]), world long_env)
  ∧ episode_length_buf long_env !! 1%nat = Some 2
  ∧ max_episode_length long_env - 1 = 2 ^ 63
  ∧ ∃ (early_termination clean_termination : list bool) (s' : Env store),
      LeatherbackPushBlockEnv._get_dones long_env
        = Some ((early_termination, clean_termination), s')
      ∧ clean_termination !! 1%nat = Some true
      ∧ clean_termination !! 1%nat
        ≠ Some (false || false || (2 >=? max_episode_length long_env - 1)).
Proof.
  split_and!; try reflexivity.
  eexists _, _, _. split_and!; [vm_compute; reflexivity | reflexivity | discriminate].
Qed.

Lemma reset_idx_resets_task_witness :
  (∃ (s' : Env store) (new : list call),
     FloatingPlatformGoThroughPosesEnv._reset_idx None (env true) = Some ((), s')
     ∧ calls s' = calls (env true) ++ new
     ∧ count is_task_reset new = 1%nat
     ∧ last new = Some (task_reset [0%nat; 1%nat]))
  ∧ (∃ (s' : Env store) (new : list call),
     LeatherbackPushBlockEnv._reset_idx (Some [1%nat; 1%nat]) (env true) = Some ((), s')
     ∧ calls s' = calls (env true) ++ new
     ∧ count is_task_reset new = 1%nat
     ∧ last new = Some (task_reset [0%nat; 1%nat]))
  ∧ (∃ (s' : Env store) (new : list call),
     LeatherbackPushBlockEnv._reset_idx (Some [1%nat]) (env true) = Some ((), s')
     ∧ calls s' = calls (env true) ++ new
     ∧ count is_task_reset new = 1%nat
     ∧ last new = Some (task_reset [1%nat])).
Proof.
  split_and!.
  - destruct (reset_idx_resets_task FloatingPlatformGoThroughPosesEnv._reset_idx
                (or_introl eq_refl) None (env true))
      as (resolved & s' & new & w & Hrun & Hnone & _ & _ & Hcalls & Hcount & Hlast & _).
    rewrite (Hnone eq_refl) in Hlast. by exists s', new.
  - destruct (reset_idx_resets_task LeatherbackPushBlockEnv._reset_idx
                (or_intror eq_refl) (Some [1%nat; 1%nat]) (env true))
      as (resolved & s' & new & w & Hrun & _ & Hall & _ & Hcalls & Hcount & Hlast & _).
    rewrite (Hall [1%nat; 1%nat] eq_refl eq_refl) in Hlast. by exists s', new.
  - destruct (reset_idx_resets_task LeatherbackPushBlockEnv._reset_idx
                (or_intror eq_refl) (Some [1%nat]) (env true))
      as (resolved & s' & new & w & Hrun & _ & _ & Hids & Hcalls & Hcount & Hlast & _).
    assert (Hne : length [1%nat] ≠ num_envs (env true)) by (cbn; lia).
    rewrite (Hids [1%nat] eq_refl Hne) in Hlast. by exists s', new.
Defined.

Lemma debug_vis_on_demand_witness :
  cfg_debug_vis (env false) = false
  ∧ cfg_debug_vis (env true) = true
  ∧ iterate 3 FloatingPlatformGoThroughPosesEnv._debug_vis_callback (env false)
    = Some ((), env false)
  ∧ ∃ s' : Env store,
      iterate 3 LeatherbackPushBlockEnv._debug_vis_callback (env true) = Some ((), s')
      ∧ calls s' = calls (env true) ++ replicate 3 task_update_task_visualization
      ∧ world s' = Nat.iter 3 task_api.update_task_visualization (world (env true)).
Proof.
  split_and!; [reflexivity | reflexivity | |].
  - destruct (debug_vis_on_demand
                FloatingPlatformGoThroughPosesEnv._set_debug_vis_impl
                FloatingPlatformGoThroughPosesEnv._debug_vis_callback
                (or_introl (conj eq_refl eq_refl)) (env false))
      as (_ & Hoff & _ & _).
    exact (Hoff eq_refl 3%nat).
  - destruct (debug_vis_on_demand
                LeatherbackPushBlockEnv._set_debug_vis_impl
                LeatherbackPushBlockEnv._debug_vis_callback
                (or_intror (conj eq_refl eq_refl)) (env true))
      as (_ & _ & _ & Hon).
    destruct (Hon eq_refl 3%nat) as (s' & Hrun & Hcalls & Hworld & _).
    by exists s'.
Defined.

Lemma demo_dones_shaped : dones_shaped (W := store) 2.
Proof. intros w. by split_and!. Qed.

(** One step of the leatherback environment in the small world: the
    step is counted, the second environment times out, both environments
    are reset. *)
Example step_in_demo :
  match DirectRLEnv.step LeatherbackPushBlockEnv_class [] (env true) with
  | Some ((_, _, terminated, time_outs, _), s') =>
      Some (terminated, time_outs, drop 17 (calls s'), episode_length_buf s')
  | None => None
  end
  = Some ([false; true], [true; true],
          [robot_get_dones; task_get_dones; task_compute_rewards;
           task_reset_logs [0; 1]%nat [11; 300]; task_compute_logs;
           robot_reset_logs [0; 1]%nat [11; 300]; robot_compute_logs;
           super_reset_idx [0; 1]%nat; task_reset [0; 1]%nat;
           task_get_observations],
          [0; 0]).
Proof. vm_compute. reflexivity. Qed.

Lemma demo_step_flags :
  match DirectRLEnv.step LeatherbackPushBlockEnv_class [] (env true) with
  | Some ((_, _, terminated, time_outs, _), _) => Some (terminated, time_outs)
  | None => None
  end = Some ([false; true], [true; true]).
Proof. vm_compute. reflexivity. Qed.

Lemma one_step_call_order_witness :
  dones_shaped (W := store) (num_envs (env true))
  ∧ length (episode_length_buf (env true)) = num_envs (env true)
  ∧ - 2 ^ 63 ≤ max_episode_length (env true) - 1 < 2 ^ 64
  ∧ ∃ result (s' : Env store) (new : list call),
      DirectRLEnv.step LeatherbackPushBlockEnv_class [] (env true) = Some (result, s')
      ∧ calls s' = calls (env true) ++ new
      ∧ head new = Some (robot_process_actions [])
      ∧ in_step_order new
      ∧ count is_get_dones new = 2%nat
      ∧ count is_task_reset new = 1%nat
      ∧ task_reset [0; 1]%nat ∈ new
      ∧ count is_debug_vis new = 0%nat.
Proof.
  assert (Hmax : - 2 ^ 63 ≤ max_episode_length (env true) - 1 < 2 ^ 64)
    by (cbn; lia).
  refine (conj demo_dones_shaped (conj eq_refl (conj Hmax _))).
  destruct (one_step_call_order LeatherbackPushBlockEnv_class (or_intror eq_refl) []
              (env true) demo_dones_shaped eq_refl Hmax)
    as (obs & reward & terminated & time_outs & reset_buf & extras' & s' & new
        & Hrun & Hcalls & Hhead & _ & _ & Horder & Hgd & _ & _ & _ & Hdv & _ & _ & _
        & Hor & _ & _ & Hcons).
  exists (obs, reward, terminated, time_outs, extras'), s', new.
  pose proof demo_step_flags as Hf. rewrite Hrun in Hf.
  injection Hf as -> ->.
  injection Hor as <-.
  destruct Hcons as (Hone & resolved & Hall & _ & Htask & _); [discriminate |].
  rewrite (Hall eq_refl) in Htask.
  split_and!; assumption.
Defined.
(** The two resets side by side on one environment index: only the
    leatherback environment leaves a "log" entry in extras. *)
Example reset_idx_extras_in_demo :
  (λ r, extras r.2 !! "log")
    <$> FloatingPlatformGoThroughPosesEnv._reset_idx (Some [0%nat]) (env true)
  = Some None
  ∧ (λ r, extras r.2 !! "log")
      <$> LeatherbackPushBlockEnv._reset_idx (Some [0%nat]) (env true)
    = Some (Some ({[ "Episode_Reward/action_rate" := 0.5%float ]}
                  ∪ {[ "Episode_Reward/position" := 1.0%float ]})).
Proof. split; vm_compute; reflexivity. Qed.
End Demo.

(** ** More about the environments, the configurations and the camera script *)

Section EnvMore.
Context {W : Type} `{!robot_api.API W, !task_api.API W, !host.API W}.

Lemma tensor_or_Some (a b : list bool) :
  broadcastable (length a) (length b) →
  ∃ c, tensor_or a b = Some c ∧ length c = broadcast_length (length a) (length b).
Proof.
  unfold broadcastable, broadcast_length, tensor_or. intros Hb.
  destruct (decide (length a = length b)) as [Heq|Hne].
  - eexists. split; [done |]. rewrite length_zip_with. case_decide; lia.
  - destruct Hb as [? | [Ha | Hb]]; [done | |].
    + destruct a as [|x [|? ?]]; try done. eexists. split; [done |].
      by rewrite length_fmap.
    + destruct b as [|y [|? ?]]; try done.
      destruct a as [|x [|x' a]]; try done; eexists; (split; [done |]).
      * done.
      * rewrite length_fmap. by rewrite decide_False.
Qed.

Lemma tensor_or_None (a b : list bool) :
  ¬ broadcastable (length a) (length b) → tensor_or a b = None.
Proof.
  unfold broadcastable, tensor_or. intros Hb.
  rewrite decide_False by tauto.
  destruct a as [|x [|x' a]]; destruct b as [|y [|y' b]]; cbn in *; try done;
    exfalso; apply Hb; lia.
Qed.

Lemma get_dones_cases (get_dones : M W (list bool * list bool)) :
  get_dones = FloatingPlatformGoThroughPosesEnv._get_dones
  ∨ get_dones = LeatherbackPushBlockEnv._get_dones →
  ∀ (s : Env W) (re rc te tc : list bool) (w1 w2 : W),
    robot_api.get_dones (world s) = ((re, rc), w1) →
    task_api.get_dones w1 = ((te, tc), w2) →
    ∃ s' : Env W,
      calls s' = calls s ++ [robot_get_dones; task_get_dones]
      ∧ world s' = w2
      ∧ episode_length_buf s' = episode_length_buf s
      ∧ extras s' = extras s
      ∧ frame s s'
      ∧ get_dones s
        = match tensor_ge (episode_length_buf s) (max_episode_length s - 1) with
          | Some time_out =>
              match tensor_or re te with
              | Some early =>
                  match tensor_or rc tc with
                  | Some clean =>
                      match tensor_or clean time_out with
                      | Some clean_termination => Some ((early, clean_termination), s')
                      | None => None
                      end
                  | None => None
                  end
              | None => None
              end
          | None => None
          end.
Proof.
  intros Hm s re rc te tc w1 w2 Hr Ht.
  eexists. split_and!; cycle 5.
  - destruct Hm as [-> | ->].
    all: unfold FloatingPlatformGoThroughPosesEnv._get_dones,
           LeatherbackPushBlockEnv._get_dones.
    all: unfold mbind, M_bind, invoke, gets; cbn -[tensor_or tensor_ge].
    all: rewrite Hr; cbn -[tensor_or tensor_ge]; rewrite Ht; cbn -[tensor_or tensor_ge].
    all: destruct (tensor_ge _ _) as [time_out|]; cbn -[tensor_or tensor_ge]; [|done].
    all: destruct (tensor_or re te) as [early|]; cbn -[tensor_or tensor_ge]; [|done].
    all: destruct (tensor_or rc tc) as [clean|]; cbn -[tensor_or tensor_ge]; [|done].
    all: destruct (tensor_or clean _) as [clean_termination|]; cbn; reflexivity.
  - cbn. by rewrite <- (assoc_L (++)).
  - done.
  - done.
  - done.
  - by repeat split.
Qed.

(** X1: in both environments [_get_dones] returns exactly when
    [max_episode_length - 1] fits in 64 bits, signed or unsigned, and the
    robot's and the task's early flags, their clean flags, and the clean
    flags with the episode buffer have broadcastable shapes; it raises
    otherwise, and the shapes of the two results are the broadcast
    shapes. *)
Theorem get_dones_shapes (get_dones : M W (list bool * list bool)) :
  get_dones = FloatingPlatformGoThroughPosesEnv._get_dones
  ∨ get_dones = LeatherbackPushBlockEnv._get_dones →
  ∀ (s : Env W) (re rc te tc : list bool) (w1 w2 : W),
    robot_api.get_dones (world s) = ((re, rc), w1) →
    task_api.get_dones w1 = ((te, tc), w2) →
    (is_Some (get_dones s)
     ↔ - 2 ^ 63 ≤ max_episode_length s - 1 < 2 ^ 64
       ∧ broadcastable (length re) (length te)
       ∧ broadcastable (length rc) (length tc)
       ∧ broadcastable (broadcast_length (length rc) (length tc))
           (length (episode_length_buf s)))
    ∧ ∀ (early_termination clean_termination : list bool) (s' : Env W),
        get_dones s = Some ((early_termination, clean_termination), s') →
        length early_termination = broadcast_length (length re) (length te)
        ∧ length clean_termination
          = broadcast_length (broadcast_length (length rc) (length tc))
              (length (episode_length_buf s)).
Proof.
  intros Hm s re rc te tc w1 w2 Hr Ht.
  destruct (get_dones_cases get_dones Hm s re rc te tc w1 w2 Hr Ht)
    as (s1 & _ & _ & _ & _ & _ & ->).
  pose proof (tensor_ge_is_Some (episode_length_buf s) (max_episode_length s - 1))
    as Hge.
  destruct (tensor_ge (episode_length_buf s) (max_episode_length s - 1))
    as [time_out|] eqn:Hto; cycle 1.
  { split; [|done]. split; [by intros [? ?] |].
    intros (Hmax & _). apply Hge in Hmax. by destruct Hmax. }
  assert (Hmax : - 2 ^ 63 ≤ max_episode_length s - 1 < 2 ^ 64) by (apply Hge; eauto).
  pose proof (length_tensor_ge _ _ _ Hto) as Lto.
  destruct (decide (broadcastable (length re) (length te))) as [He|He]; cycle 1.
  { rewrite (tensor_or_None re te He). split; [|done].
    split; [by intros [? ?] | tauto]. }
  destruct (tensor_or_Some re te He) as (early & -> & Hearly).
  destruct (decide (broadcastable (length rc) (length tc))) as [Hc|Hc]; cycle 1.
  { rewrite (tensor_or_None rc tc Hc). split; [|done].
    split; [by intros [? ?] | tauto]. }
  destruct (tensor_or_Some rc tc Hc) as (clean & -> & Hclean).
  destruct (decide (broadcastable (length clean) (length time_out))) as [Ht'|Ht'];
    cycle 1.
  { rewrite (tensor_or_None clean time_out Ht'). split; [|done].
    split; [by intros [? ?] |]. intros (_ & _ & _ & Hb). destruct Ht'. congruence. }
  destruct (tensor_or_Some clean time_out Ht') as (cl & -> & Hcl). split.
  - split; [|by eauto]. intros _.
    refine (conj Hmax (conj He (conj Hc _))). congruence.
  - intros e c s' Heq. simplify_eq. split; [done | congruence].
Qed.

Ltac exec :=
  unfold mbind, M_bind, invoke_, invoke, gets, set_extras, super__reset_idx,
    mret, M_ret;
  cbn.

Ltac split_calls :=
  repeat match goal with
    | |- context [let '(_, _) := ?e in _] => destruct e eqn:?
    end;
  cbn.

(** X2: the per-step methods of both environments ([_pre_physics_step],
    [_apply_action], [_get_observations], [_get_rewards], [_get_dones])
    never write the configuration, the episode buffer or extras; each
    makes exactly its own calls, observations come back under the single
    key "policy" and rewards as the task returned them. *)
Theorem step_hooks_leave_env_state (self : DirectRLEnv.subclass W) :
  self = FloatingPlatformGoThroughPosesEnv_class
  ∨ self = LeatherbackPushBlockEnv_class →
  ∀ s : Env W,
    (∀ actions : list (list float), ∃ s' : Env W,
        DirectRLEnv._pre_physics_step self actions s = Some ((), s')
        ∧ calls s' = calls s ++ [robot_process_actions actions]
        ∧ world s' = robot_api.process_actions actions (world s)
        ∧ env_owned_unchanged s s')
    ∧ (∃ s' : Env W,
        DirectRLEnv._apply_action self s = Some ((), s')
        ∧ calls s' = calls s ++ [robot_apply_actions]
        ∧ world s' = robot_api.apply_actions (world s)
        ∧ env_owned_unchanged s s')
    ∧ (∃ s' : Env W,
        DirectRLEnv._get_observations self s
        = Some ({[ "policy" := (task_api.get_observations (world s)).1 ]}, s')
        ∧ calls s' = calls s ++ [task_get_observations]
        ∧ world s' = (task_api.get_observations (world s)).2
        ∧ env_owned_unchanged s s')
    ∧ (∃ s' : Env W,
        DirectRLEnv._get_rewards self s
        = Some ((task_api.compute_rewards (world s)).1, s')
        ∧ calls s' = calls s ++ [task_compute_rewards]
        ∧ world s' = (task_api.compute_rewards (world s)).2
        ∧ env_owned_unchanged s s')
    ∧ (∀ flags (s' : Env W),
        DirectRLEnv._get_dones self s = Some (flags, s') →
        calls s' = calls s ++ [robot_get_dones; task_get_dones]
        ∧ world s' = (task_api.get_dones (robot_api.get_dones (world s)).2).2
        ∧ env_owned_unchanged s s').
Proof.
  intros Hm s. split_and!.
  - intros actions. destruct Hm as [-> | ->]; cbn; exec.
    all: eexists; unfold env_owned_unchanged; split_and!; try done; by repeat split.
  - destruct Hm as [-> | ->]; cbn; exec.
    all: eexists; unfold env_owned_unchanged; split_and!; try done; by repeat split.
  - destruct Hm as [-> | ->]; cbn.
    all: unfold FloatingPlatformGoThroughPosesEnv._get_observations,
           LeatherbackPushBlockEnv._get_observations; exec.
    all: destruct (task_api.get_observations (world s)) as [obs w]; cbn.
    all: eexists; unfold env_owned_unchanged; split_and!; try done; by repeat split.
  - destruct Hm as [-> | ->]; cbn.
    all: unfold FloatingPlatformGoThroughPosesEnv._get_rewards,
           LeatherbackPushBlockEnv._get_rewards; exec.
    all: destruct (task_api.compute_rewards (world s)) as [rew w]; cbn.
    all: eexists; unfold env_owned_unchanged; split_and!; try done; by repeat split.
  - intros flags s' Hrun.
    destruct (robot_api.get_dones (world s)) as [[re rc] w1] eqn:Hr.
    destruct (task_api.get_dones w1) as [[te tc] w2] eqn:Ht.
    assert (Hg : DirectRLEnv._get_dones self
                 = FloatingPlatformGoThroughPosesEnv._get_dones
                 ∨ DirectRLEnv._get_dones self = LeatherbackPushBlockEnv._get_dones).
    { destruct Hm as [-> | ->]; auto. }
    destruct (get_dones_cases _ Hg s re rc te tc w1 w2 Hr Ht)
      as (s1 & Hcalls & Hworld & Hbuf & Hextras & Hframe & Heq).
    rewrite Heq in Hrun.
    destruct (tensor_ge _ _); [|done].
    destruct (tensor_or re te); [|done].
    destruct (tensor_or rc tc); [|done].
    destruct (tensor_or _ _); [|done].
    simplify_eq. cbn. rewrite Ht. cbn. unfold env_owned_unchanged. by split_and!.
Qed.

Lemma bind_congr_head {A B} (m1 m2 : M W A) (f : A → M W B) (s : Env W) :
  m1 s = m2 s → (m1 ≫= f) s = (m2 ≫= f) s.
Proof. unfold mbind, M_bind. by intros ->. Qed.

(** X3: in both environments a reset with any index list that has as many
    entries as there are environments, or with the robot's [_ALL_INDICES],
    is the same as a reset with [None]: the entries of such a list are
    never read. *)
Theorem reset_idx_full_length (_reset_idx : option (list nat) → M W ()) :
  _reset_idx = FloatingPlatformGoThroughPosesEnv._reset_idx
  ∨ _reset_idx = LeatherbackPushBlockEnv._reset_idx →
  ∀ s : Env W,
    _reset_idx (Some (robot__ALL_INDICES s)) s = _reset_idx None s
    ∧ ∀ env_ids : list nat,
        length env_ids = num_envs s →
        _reset_idx (Some env_ids) s = _reset_idx None s.
Proof.
  intros Hm s. split.
  - destruct Hm as [-> | ->].
    all: unfold FloatingPlatformGoThroughPosesEnv._reset_idx,
           LeatherbackPushBlockEnv._reset_idx.
    all: apply bind_congr_head; rewrite !resolve_env_ids_eq; by case_decide.
  - intros env_ids Hlen. destruct Hm as [-> | ->].
    all: unfold FloatingPlatformGoThroughPosesEnv._reset_idx,
           LeatherbackPushBlockEnv._reset_idx.
    all: apply bind_congr_head; rewrite !resolve_env_ids_eq; by rewrite decide_True.
Qed.

(** X4: after [LeatherbackPushBlockEnv._reset_idx] the "log" entry of
    extras holds, for every key, the robot's value when the robot logs the
    key and the task's value otherwise; its keys are those of the two
    logs, whatever "log" held before; the other entries of extras are kept;
    and the episode buffer is the one the base-class reset returns for the
    buffer the logs were taken from. *)
Theorem leatherback_log_entry (env_ids : option (list nat)) (s : Env W) :
  ∃ (resolved : list nat) (s' : Env W) (task_extras robot_extras log : gmap string float)
    (w1 w2 : W),
    LeatherbackPushBlockEnv._reset_idx env_ids s = Some ((), s')
    ∧ resolve_env_ids env_ids s = Some (resolved, s)
    ∧ task_api.compute_logs
        (task_api.reset_logs resolved (episode_length_buf s) (world s))
      = (task_extras, w1)
    ∧ robot_api.compute_logs
        (robot_api.reset_logs resolved (episode_length_buf s) w1)
      = (robot_extras, w2)
    ∧ extras s' !! "log" = Some log
    ∧ (∀ key : string,
        log !! key = match robot_extras !! key with
                     | Some v => Some v
                     | None => task_extras !! key
                     end)
    ∧ dom log = dom task_extras ∪ dom robot_extras
    ∧ (∀ key : string, key ≠ "log" → extras s' !! key = extras s !! key)
    ∧ episode_length_buf s'
      = (host._reset_idx resolved (episode_length_buf s, w2)).1.
Proof.
  pose proof (resolve_env_ids_eq env_ids s) as Hres.
  match type of Hres with _ = Some (?r, _) => set (resolved := r) in * end.
  exists resolved.
  unfold LeatherbackPushBlockEnv._reset_idx.
  unfold mbind at 1, M_bind at 1. rewrite Hres.
  exec. split_calls.
  eexists _, _, _, _, _, _. split_and!; try done.
  - apply lookup_insert_eq.
  - intros key. unfold dict_update. rewrite (right_id_L ∅ (∪)).
    rewrite lookup_union. by destruct (_ !! key), (_ !! key).
  - unfold dict_update. rewrite (right_id_L ∅ (∪)). rewrite dom_union_L.
    apply (comm_L (∪)).
  - intros key Hkey. by apply lookup_insert_ne.
  - cbn. match goal with H : host._reset_idx _ _ = _ |- _ => cbn in H; by rewrite H end.
Qed.

(** X5: the two debug-visualization guards are independent: with
    [cfg.debug_vis] true the callback updates the task visualization even
    after [_set_debug_vis_impl(False)], with it false nothing is updated
    even after [_set_debug_vis_impl(True)], and [_set_debug_vis_impl(True)]
    creates the visualization again each time it is called. *)
Theorem debug_vis_guards_independent
    (set_debug_vis_impl : bool → M W ()) (callback : M W ()) :
  (set_debug_vis_impl = FloatingPlatformGoThroughPosesEnv._set_debug_vis_impl
   ∧ callback = FloatingPlatformGoThroughPosesEnv._debug_vis_callback)
  ∨ (set_debug_vis_impl = LeatherbackPushBlockEnv._set_debug_vis_impl
     ∧ callback = LeatherbackPushBlockEnv._debug_vis_callback) →
  ∀ s : Env W,
    (cfg_debug_vis s = true →
     ∃ s' : Env W,
       (set_debug_vis_impl false ;; callback) s = Some ((), s')
       ∧ calls s' = calls s ++ [task_update_task_visualization]
       ∧ world s' = task_api.update_task_visualization (world s))
    ∧ (cfg_debug_vis s = false →
       ∃ s' : Env W,
         (set_debug_vis_impl true ;; callback) s = Some ((), s')
         ∧ calls s' = calls s ++ [task_create_task_visualization]
         ∧ world s' = task_api.create_task_visualization (world s))
    ∧ (∃ s' : Env W,
         (set_debug_vis_impl true ;; set_debug_vis_impl true) s = Some ((), s')
         ∧ calls s' = calls s ++ [task_create_task_visualization;
                                  task_create_task_visualization]
         ∧ world s' = task_api.create_task_visualization
                        (task_api.create_task_visualization (world s))).
Proof.
  intros Hm s. split_and!.
  - intros Hon. destruct Hm as [[-> ->] | [-> ->]].
    all: unfold FloatingPlatformGoThroughPosesEnv._debug_vis_callback,
           LeatherbackPushBlockEnv._debug_vis_callback; cbn; exec.
    all: rewrite Hon; eexists; split_and!; done.
  - intros Hoff. destruct Hm as [[-> ->] | [-> ->]].
    all: unfold FloatingPlatformGoThroughPosesEnv._debug_vis_callback,
           LeatherbackPushBlockEnv._debug_vis_callback; cbn; exec.
    all: rewrite Hoff; eexists; split_and!; done.
  - destruct Hm as [[-> _] | [-> _]]; cbn; exec.
    all: eexists; split_and!; try done.
    all: cbn; by rewrite <- (assoc_L (++)).
Qed.
End EnvMore.

Section Configs.

Lemma thruster_name_inj : Inj (=) (=) (λ i : nat, "thruster_" +:+ pretty i).
Proof.
  intros i j Heq. apply (inj (String.app "thruster_")) in Heq.
  by apply (inj pretty) in Heq.
Qed.

Lemma thruster_names_spec (n : nat) :
  let names := (λ i : nat, "thruster_" +:+ pretty i) <$> seq 1 n in
  length names = n
  ∧ NoDup names
  ∧ (∀ i : nat, (i < n)%nat → names !! i = Some ("thruster_" +:+ pretty (S i)))
  ∧ "thruster_0" ∉ names
  ∧ ∀ j : nat, ("thruster_" +:+ pretty j) ∈ names ↔ (1 ≤ j ≤ n)%nat.
Proof.
  cbn. split_and!.
  - by rewrite length_fmap, length_seq.
  - apply (@NoDup_fmap_2 _ _ _ thruster_name_inj), NoDup_seq.
  - intros i Hi. rewrite list_lookup_fmap, lookup_seq_lt by done. done.
  - intros Hin. apply list_elem_of_fmap in Hin as (i & Heq & Hi).
    apply elem_of_seq in Hi.
    change "thruster_0" with ((λ i : nat, "thruster_" +:+ pretty i) 0%nat) in Heq.
    apply thruster_name_inj in Heq. lia.
  - intros j. rewrite list_elem_of_fmap. split.
    + intros (i & Heq & Hi). apply thruster_name_inj in Heq as ->.
      apply elem_of_seq in Hi. lia.
    + intros Hj. exists j. split; [done |]. apply elem_of_seq. lia.
Qed.

(** X6: [FloatingPlatformRobotCfg] names its thruster joints [thruster_1]
    to [thruster_8]: one name per thruster of the class, pairwise
    distinct, numbered from 1, never [thruster_0].  The names are computed
    when the class is created: a configuration given another
    [num_thrusters] keeps the eight names, so that the environment's
    action space, which reads [num_thrusters], has one component per named
    joint only when [num_thrusters] is 8. *)
Theorem thrusters_dof_name_spec :
  let names := floating_platform_cfg.thrusters_dof_name floating_platform_cfg.default in
  length names = floating_platform_cfg.num_thrusters floating_platform_cfg.default
  ∧ NoDup names
  ∧ (∀ i : nat, (i < 8)%nat → names !! i = Some ("thruster_" +:+ pretty (S i)))
  ∧ "thruster_0" ∉ names
  ∧ (∀ j : nat, ("thruster_" +:+ pretty j) ∈ names ↔ (1 ≤ j ≤ 8)%nat)
  ∧ ∀ n : nat,
      let robot_cfg :=
        floating_platform_cfg.set_num_thrusters n floating_platform_cfg.default in
      let cfg := FloatingPlatformGoThroughPosesEnvCfg.set_robot_cfg robot_cfg
                   FloatingPlatformGoThroughPosesEnvCfg.default in
      floating_platform_cfg.thrusters_dof_name robot_cfg = names
      ∧ ∃ components : list space,
          FloatingPlatformGoThroughPosesEnvCfg.single_action_space cfg = Tuple components
          ∧ length components = n
          ∧ (length components = length names ↔ n = 8%nat).
Proof.
  destruct (thruster_names_spec 8) as (Hlen & Hnodup & Hnames & H0 & Hin).
  split_and!; [exact Hlen | exact Hnodup | exact Hnames | exact H0 | exact Hin |].
  intros n robot_cfg cfg. split; [reflexivity |].
  eexists. split; [reflexivity |].
  rewrite length_replicate. cbn. split; [reflexivity | done].
Qed.

Section GoToPositionMore.
Import go_to_position_cfg.

(** X9: in the default [GoToPositionCfg] the position tolerance is below
    the minimal spawn distance, the goal offset plus the maximal spawn
    distance stays within [maximum_robot_distance], the velocity penalty
    bands have their minimum below their maximum, the position weight is
    positive and the three penalty weights are negative, and the number of
    steps in tolerance before a reset is positive. *)
Theorem GoToPositionCfg_default_reward_terms :
  PrimFloat.ltb (position_tolerance default) (spawn_min_dist default) = true
  ∧ PrimFloat.leb (goal_max_dist_from_origin default + spawn_max_dist default)
      (maximum_robot_distance default) = true
  ∧ PrimFloat.ltb (linear_velocity_min_value default)
      (linear_velocity_max_value default) = true
  ∧ PrimFloat.ltb (angular_velocity_min_value default)
      (angular_velocity_max_value default) = true
  ∧ PrimFloat.ltb 0 (position_weight default) = true
  ∧ PrimFloat.ltb (linear_velocity_weight default) 0 = true
  ∧ PrimFloat.ltb (angular_velocity_weight default) 0 = true
  ∧ PrimFloat.ltb (boundary_weight default) 0 = true
  ∧ 0 < reset_after_n_steps_in_tolerance default.
Proof. repeat split; reflexivity. Qed.
End GoToPositionMore.

Section Leatherback.
Import leatherback_cfg.

(** X10: in the default [LeatherbackRobotCfg] no joint is named twice
    among the four throttle and the two steering joints, the steering
    scale is exactly a quarter of [math.pi], positive and below a right
    angle, and the throttle scale is positive. *)
Theorem LeatherbackRobotCfg_default_joints :
  NoDup (throttle_dof_name default ++ steering_dof_name default)
  ∧ length (throttle_dof_name default) = 4%nat
  ∧ length (steering_dof_name default) = 2%nat
  ∧ (steering_scale default * 4)%float = math_pi
  ∧ PrimFloat.ltb 0 (steering_scale default) = true
  ∧ PrimFloat.ltb (steering_scale default) (math_pi / 2) = true
  ∧ PrimFloat.ltb 0 (throttle_scale default) = true.
Proof.
  split_and!; try reflexivity.
  apply (bool_decide_unpack _). by vm_compute.
Qed.
End Leatherback.

Section Shapes.
Import navigation_shapes_cfg.

(** X11: the six navigation-shape configurations have six different
    spawner functions; no class declares a required field twice; the pin
    variants of the diamond and the arrow require the fields of the plain
    shape followed by the pin's radius and length; the two-coloured diamond
    requires what the diamond requires; and the default material paths of
    a class are pairwise different. *)
Theorem shape_cfg_spawners :
  (∀ c1 c2 : shape_cfg, func c1 = func c2 → c1 = c2)
  ∧ (∀ c : shape_cfg, NoDup (missing_fields c))
  ∧ missing_fields PinDiamondCfg = missing_fields DiamondCfg ++ ["pin_radius"; "pin_length"]
  ∧ missing_fields PinArrowCfg = missing_fields ArrowCfg ++ ["pin_radius"; "pin_length"]
  ∧ missing_fields BiColorDiamondCfg = missing_fields DiamondCfg
  ∧ (∀ c : shape_cfg, NoDup ((material_paths c).*2))
  ∧ (∀ c : shape_cfg, (material_paths c) !! 0%nat = Some ("visual_material_path", "material")).
Proof.
  split_and!; try reflexivity.
  - intros [] []; cbn; congruence.
  - intros []; apply (bool_decide_unpack _); by vm_compute.
  - intros []; apply (bool_decide_unpack _); by vm_compute.
Qed.
End Shapes.

Section RegistryMore.
Import tasks_cfg.

Lemma TASK_CFG_FACTORY_list : TASK_CFG_FACTORY = list_to_map registrations.
Proof. by vm_compute. Qed.

Lemma registrations_NoDup : NoDup (registrations.*1).
Proof. apply (bool_decide_unpack _). by vm_compute. Qed.

(** X12: the registry holds exactly the eight registered pairs: no name
    and no class is registered twice, a class is registered under its
    class name without the suffix Cfg, two names never look up to the same
    class, and of the classes the module imports every one but the base
    class [TaskCoreCfg] can be looked up. *)
Theorem registrations_one_to_one :
  NoDup (registrations.*1)
  ∧ NoDup (registrations.*2)
  ∧ size TASK_CFG_FACTORY = 8%nat
  ∧ (∀ (name : string) (c : task_cfg),
       lookup name TASK_CFG_FACTORY = Some c ↔ (name, c) ∈ registrations)
  ∧ (∀ (name : string) (c : task_cfg),
       lookup name TASK_CFG_FACTORY = Some c → class_name c = name +:+ "Cfg")
  ∧ (∀ (name1 name2 : string) (c : task_cfg),
       lookup name1 TASK_CFG_FACTORY = Some c →
       lookup name2 TASK_CFG_FACTORY = Some c → name1 = name2)
  ∧ (∀ c : task_cfg,
       (∃ name : string, lookup name TASK_CFG_FACTORY = Some c) ↔ c ≠ TaskCoreCfg).
Proof.
  assert (Hiff : ∀ (name : string) (c : task_cfg),
             lookup name TASK_CFG_FACTORY = Some c ↔ (name, c) ∈ registrations).
  { intros name c. unfold lookup. rewrite TASK_CFG_FACTORY_list.
    symmetry. apply elem_of_list_to_map. apply registrations_NoDup. }
  assert (Hcases : ∀ (name : string) (c : task_cfg),
             (name, c) ∈ registrations → class_name c = name +:+ "Cfg").
  { intros name c Hin. unfold registrations in Hin.
    repeat (apply elem_of_cons in Hin as [Heq | Hin]; [by simplify_eq |]).
    by apply elem_of_nil in Hin. }
  split_and!.
  - apply registrations_NoDup.
  - apply (bool_decide_unpack _). by vm_compute.
  - by vm_compute.
  - exact Hiff.
  - intros name c Hl. apply Hcases. by apply Hiff.
  - intros n1 n2 c H1 H2. apply Hiff in H1. apply Hiff in H2.
    unfold registrations in H1, H2.
    repeat (apply elem_of_cons in H1 as [H1 | H1];
            [injection H1 as -> -> | ]);
      try (by apply elem_of_nil in H1);
      repeat (apply elem_of_cons in H2 as [H2 | H2];
              [by injection H2 as -> | ]);
      by apply elem_of_nil in H2.
  - intros c. split.
    { intros [name Hl] ->. apply Hiff in Hl. unfold registrations in Hl.
      repeat (apply elem_of_cons in Hl as [Hl | Hl]; [discriminate |]).
      by apply elem_of_nil in Hl. }
    intros Hc.
    exists (match c with
            | TaskCoreCfg => "TaskCore"
            | GoThroughPosesCfg => "GoThroughPoses"
            | GoThroughPositionsCfg => "GoThroughPositions"
            | GoToPoseCfg => "GoToPose"
            | GoToPositionCfg => "GoToPosition"
            | PushBlockCfg => "PushBlock"
            | RaceWaypointsCfg => "RaceWaypoints"
            | RaceWayposesCfg => "RaceWayposes"
            | TrackVelocitiesCfg => "TrackVelocities"
            end).
    by destruct c.
Qed.
End RegistryMore.
End Configs.

Section Namespace.
Local Open Scope nat_scope.
(** X13: no name is bound twice in the rans package; every name and
    every submodule of its import statements is exported; for a registered
    task the configuration class is exported exactly when the task class
    is, which is the case for all but PushBlock; and every exported robot
    has its configuration class exported. *)
Theorem rans_namespace_pairs :
  NoDup rans.namespace
  ∧ (∀ name : string, name ∈ (tasks_cfg.registrations.*1) →
       rans.exports (name +:+ "Cfg") = rans.exports (name +:+ "Task")
       ∧ rans.exports (name +:+ "Cfg") = negb (bool_decide (name = "PushBlock")))
  ∧ (∀ (submodule : string) (names : list string) (name : string),
       (submodule, names) ∈ rans.init_imports → name ∈ names →
       rans.exports name = true ∧ rans.exports submodule = true)
  ∧ (∀ names : list string, ("robots", names) ∈ rans.init_imports →
       ∀ robot : string, robot ∈ names → rans.exports (robot +:+ "Cfg") = true).
Proof.
  split_and!.
  - apply (bool_decide_unpack _). by vm_compute.
  - apply Forall_forall. apply (bool_decide_unpack _). by vm_compute.
  - intros submodule names name Hsub Hname. unfold rans.exports, rans.namespace.
    rewrite !bool_decide_eq_true. split.
    + apply elem_of_app. left. apply list_elem_of_In, in_concat.
      exists names. split; [| by apply list_elem_of_In].
      apply list_elem_of_In, list_elem_of_fmap. by exists (submodule, names).
    + apply elem_of_app. right. apply list_elem_of_fmap. by exists (submodule, names).
  - intros names Hin. unfold rans.init_imports in Hin.
    rewrite !elem_of_cons, elem_of_nil in Hin.
    destruct Hin as [H | [H | [H | [H | [H | []]]]]]; simplify_eq.
    apply Forall_forall. apply (bool_decide_unpack _). by vm_compute.
Qed.
End Namespace.


Section CameraScript.
Import run_ray_caster_camera.
Local Open Scope nat_scope.

Lemma dict_get_set {V} (key key' : string) (v : V) (d : list (string * V)) :
  dict_get key' (dict_set key v d) = if decide (key = key') then Some v else dict_get key' d.
Proof.
  induction d as [|[k v'] d IH]; cbn.
  - done.
  - destruct (decide (k = key)) as [->|Hk]; cbn.
    + by destruct (decide (key = key')).
    + rewrite IH. destruct (decide (k = key')) as [->|]; [|done].
      by rewrite decide_False.
Qed.

Lemma dict_set_keys {V} (key : string) (v : V) (d : list (string * V)) :
  (dict_set key v d).*1 = if decide (key ∈ d.*1) then d.*1 else d.*1 ++ [key].
Proof.
  induction d as [|[k v'] d IH]; cbn.
  - rewrite decide_False; [done | set_solver].
  - destruct (decide (k = key)) as [->|Hk]; cbn.
    + rewrite decide_True; [done | set_solver].
    + rewrite IH. destruct (decide (key ∈ d.*1)).
      * rewrite decide_True; [done | set_solver].
      * rewrite decide_False; [done | set_solver].
Qed.

Section Pack.
Context {D I F : Type}.

Lemma pack_get_other (key : string) (keys : list string) (values : list D)
    (infos : list (option I)) (acc : list (string * rep_value D I F)) :
  key ∉ take (length infos) (take (length values) keys) →
  dict_get key (pack keys values infos acc) = dict_get key acc.
Proof.
  revert values infos acc.
  induction keys as [|k keys IH]; intros values infos acc Hnot; [done |].
  destruct values as [|data values]; [done |].
  destruct infos as [|info infos]; [done |].
  cbn [pack]. cbn in Hnot. rewrite IH by set_solver.
  rewrite dict_get_set. rewrite decide_False; [done | set_solver].
Qed.

Lemma pack_get (i : nat) (key : string) (data : D) (info : option I)
    (keys : list string) (values : list D) (infos : list (option I))
    (acc : list (string * rep_value D I F)) :
  NoDup keys →
  keys !! i = Some key → values !! i = Some data → infos !! i = Some info →
  dict_get key (pack keys values infos acc) = Some (entry data info).
Proof.
  intros Hnodup. revert i values infos acc.
  induction Hnodup as [|k keys Hk Hnodup IH]; intros i values infos acc Hkey Hdata Hinfo;
    [done |].
  destruct values as [|data0 values]; [done |].
  destruct infos as [|info0 infos]; [done |].
  cbn [pack]. destruct i as [|i]; cbn in Hkey, Hdata, Hinfo.
  - simplify_eq. rewrite pack_get_other.
    + rewrite dict_get_set, decide_True by done. by destruct info.
    + intros Hin. apply Hk. eapply subseteq_take, subseteq_take, Hin.
  - by eapply IH.
Qed.

Lemma pack_keys (keys : list string) (values : list D)
    (infos : list (option I)) (acc : list (string * rep_value D I F)) :
  NoDup keys → length values = length keys →
  (∀ k, k ∈ keys → k ∉ acc.*1) →
  (pack keys values infos acc).*1 = acc.*1 ++ take (length infos) keys.
Proof.
  intros Hnodup. revert values infos acc.
  induction Hnodup as [|k keys Hk Hnodup IH]; intros values infos acc Hlen Hfresh.
  { destruct values; [|done]. cbn. by rewrite take_nil, (right_id_L [] (++)). }
  destruct values as [|data values]; [done |].
  destruct infos as [|info infos]; [cbn; by rewrite (right_id_L [] (++)) |].
  cbn [pack length take]. rewrite IH.
  - rewrite dict_set_keys. rewrite decide_False by (apply Hfresh; set_solver).
    by rewrite <- (assoc_L (++)).
  - cbn in Hlen. lia.
  - intros k' Hk'. rewrite dict_set_keys.
    rewrite decide_False by (apply Hfresh; set_solver).
    rewrite elem_of_app, list_elem_of_singleton.
    intros [Hin | ->]; [|done]. apply (Hfresh k'); [set_solver | done].
Qed.

(** X14: in [rep_output] a data key other than "trigger_outputs" is
    bound by position: to the data with the info at the same position of
    [single_cam_info] when that info is not [None], to the data alone when
    it is [None], and not at all when [single_cam_info] has no entry at
    that position. *)
Theorem rep_output_entries (single_cam_data : list (string * D))
    (single_cam_info : list (string * option I)) (frame : F) :
  NoDup (single_cam_data.*1) →
  ∀ (i : nat) (key : string) (data : D),
    single_cam_data !! i = Some (key, data) →
    key ≠ "trigger_outputs" →
    (∀ (name : string) (info : I),
       single_cam_info !! i = Some (name, Some info) →
       dict_get key (rep_output single_cam_data single_cam_info frame)
       = Some (data_info data info))
    ∧ (∀ name : string,
       single_cam_info !! i = Some (name, None) →
       dict_get key (rep_output single_cam_data single_cam_info frame)
       = Some (data_only data))
    ∧ (single_cam_info !! i = None →
       dict_get key (rep_output (F := F) single_cam_data single_cam_info frame) = None).
Proof.
  intros Hnodup i key data Hdata Hkey.
  assert (Hk : single_cam_data.*1 !! i = Some key).
  { by rewrite list_lookup_fmap, Hdata. }
  assert (Hv : single_cam_data.*2 !! i = Some data).
  { by rewrite list_lookup_fmap, Hdata. }
  unfold rep_output. rewrite dict_get_set, decide_False by done.
  split_and!.
  - intros name info Hinfo.
    rewrite (pack_get i key data (Some info)); [done | done | done | done |].
    by rewrite list_lookup_fmap, Hinfo.
  - intros name Hinfo.
    rewrite (pack_get i key data None); [done | done | done | done |].
    by rewrite list_lookup_fmap, Hinfo.
  - intros Hnone. rewrite pack_get_other; [done |].
    intros Hin. apply elem_of_take in Hin as (j & Hj & Hlt).
    apply lookup_take_Some in Hj as [Hj _].
    assert (i = j) as -> by (by eapply NoDup_lookup).
    apply lookup_ge_None in Hnone. rewrite length_fmap in Hlt. lia.
Qed.

(** X15: [rep_output] always binds "trigger_outputs" to the frame entry,
    also when the camera data has a key of that name; its keys are the
    data keys that have an info, in order, followed by "trigger_outputs"
    unless it is already among them, and no key occurs twice. *)
Theorem rep_output_trigger (single_cam_data : list (string * D))
    (single_cam_info : list (string * option I)) (frame : F) :
  NoDup (single_cam_data.*1) →
  let packed := take (length single_cam_info) (single_cam_data.*1) in
  dict_get "trigger_outputs" (rep_output single_cam_data single_cam_info frame)
  = Some (on_time frame)
  ∧ (rep_output (F := F) single_cam_data single_cam_info frame).*1
    = (if decide ("trigger_outputs" ∈ packed) then packed
       else packed ++ ["trigger_outputs"])
  ∧ NoDup ((rep_output (F := F) single_cam_data single_cam_info frame).*1).
Proof.
  intros Hnodup packed.
  assert (Hkeys : (pack (F := F) (single_cam_data.*1) (single_cam_data.*2)
                     (single_cam_info.*2) []).*1 = packed).
  { rewrite pack_keys; [| done | by rewrite !length_fmap | set_solver].
    unfold packed. by rewrite length_fmap. }
  assert (Hpacked : NoDup packed).
  { unfold packed. eapply sublist_NoDup; [done | apply sublist_take]. }
  unfold rep_output. split_and!.
  - rewrite dict_get_set. by rewrite decide_True.
  - by rewrite dict_set_keys, Hkeys.
  - rewrite dict_set_keys, Hkeys. case_decide; [done |].
    apply NoDup_app. split_and!; [done | | apply NoDup_singleton].
    intros k Hk Hk'. apply list_elem_of_singleton in Hk' as ->. done.
Qed.
End Pack.
End CameraScript.

Section Index.
Import run_ray_caster_camera.
Local Open Scope nat_scope.
Context {D : Type}.

Lemma dict_set_fresh {V} (key : string) (v : V) (d : list (string * V)) :
  key ∉ d.*1 → dict_set key v d = d ++ [(key, v)].
Proof.
  induction d as [|[k v'] d IH]; cbn; [done |].
  intros Hnot. rewrite decide_False by set_solver. rewrite IH by set_solver. done.
Qed.

Lemma index_items_acc (camera_index : nat) (items : list (string * list D))
    (acc : list (string * D)) :
  NoDup (items.*1) → (∀ k, k ∈ items.*1 → k ∉ acc.*1) →
  index_items camera_index items acc
  = (acc ++.) <$> mapM (λ kv, (kv.1 ,.) <$> kv.2 !! camera_index) items.
Proof.
  revert acc. induction items as [|[key value] items IH]; intros acc Hnodup Hfresh.
  { cbn. by rewrite (right_id_L [] (++)). }
  cbn in Hnodup. apply NoDup_cons in Hnodup as [Hkey Hnodup].
  cbn [index_items mapM fst snd]. destruct (value !! camera_index) as [v|]; cbn; [|done].
  rewrite dict_set_fresh by (apply Hfresh; set_solver).
  rewrite IH; [| done |].
  - destruct (mapM _ items) as [d|]; cbn; [|done]. by rewrite <- (assoc_L (++)).
  - intros k Hk. rewrite fmap_app, elem_of_app. cbn.
    intros [Hin | Hin%list_elem_of_singleton]; [| by subst].
    apply (Hfresh k); [set_solver | done].
Qed.

(** X16: for a backend other than torch, picking the camera's entry of
    every output succeeds exactly when every output has an entry at the
    camera index; the result then has the keys of the output in the same
    order, each bound to that entry. *)
Theorem index_items_every_output (camera_index : nat) (output : list (string * list D)) :
  NoDup (output.*1) →
  (is_Some (index_items camera_index output [])
   ↔ Forall (λ kv, camera_index < length kv.2) output)
  ∧ ∀ single_cam_data : list (string * D),
      index_items camera_index output [] = Some single_cam_data →
      single_cam_data.*1 = output.*1
      ∧ ∀ (j : nat) (key : string) (value : list D),
          output !! j = Some (key, value) →
          ∃ v : D, value !! camera_index = Some v
                   ∧ single_cam_data !! j = Some (key, v).
Proof.
  intros Hnodup. rewrite index_items_acc by (done || set_solver). split.
  - rewrite fmap_is_Some, mapM_is_Some. apply Forall_iff. intros [key value]. cbn.
    rewrite fmap_is_Some. apply lookup_lt_is_Some.
  - intros d Hd. apply fmap_Some in Hd as (d' & Hd' & ->). cbn.
    apply mapM_Some_1 in Hd'. split.
    + clear Hnodup. induction Hd' as [|[k v] [k' v'] ? ? Hkv _ IH]; [done |].
      cbn in *. apply fmap_Some in Hkv as (x & _ & Heq). simplify_eq. by f_equal.
    + intros j key value Hj.
      destruct (Forall2_lookup_l _ _ _ _ _ Hd' Hj) as ([k v] & Hdj & Hkv).
      cbn in Hkv. apply fmap_Some in Hkv as (x & Hx & Heq). simplify_eq.
      by exists x.
Qed.
End Index.

Section Reproj.
Import run_ray_caster_camera.
Local Open Scope nat_scope.
Context {A : Type}.
Implicit Types (m : list (list A)) (flat : list A).

Lemma length_transpose (cols : nat) m :
  Forall (λ row, length row = cols) m → length (transpose cols m) = cols.
Proof.
  induction 1 as [|row m Hrow _ IH]; cbn.
  - apply length_replicate.
  - rewrite length_zip_with, IH, Hrow. lia.
Qed.

Lemma transpose_lookup (cols : nat) m (h : nat) :
  Forall (λ row, length row = cols) m → h < cols →
  ∃ col, transpose cols m !! h = Some col
         ∧ length col = length m
         ∧ ∀ w, col !! w = m !! w ≫= (λ row : list A, row !! h).
Proof.
  intros Hm Hh. induction Hm as [|row m Hrow Hm IH]; cbn.
  - exists []. split_and!; [by apply lookup_replicate_2 | done | done].
  - destruct IH as (col & Hcol & Hlen & Hlookup).
    destruct (lookup_lt_is_Some_2 row h) as [x Hx]; [lia |].
    exists (x :: col). split_and!.
    + rewrite lookup_zip_with, Hx, Hcol. done.
    + cbn. by rewrite Hlen.
    + intros [|w]; cbn; [done | apply Hlookup].
Qed.

Lemma length_concat_uniform (P : nat) (rows : list (list A)) :
  Forall (λ row, length row = P) rows → length (concat rows) = length rows * P.
Proof.
  induction 1 as [|row rows Hrow _ IH]; cbn; [done |].
  rewrite length_app, IH, Hrow. lia.
Qed.

Lemma lookup_concat_uniform (P : nat) (rows : list (list A)) (n j : nat) :
  Forall (λ row, length row = P) rows → j < P →
  concat rows !! (n * P + j) = rows !! n ≫= (λ row : list A, row !! j).
Proof.
  intros Hrows Hj. revert n. induction Hrows as [|row rows Hrow _ IH]; intros n.
  - done.
  - destruct n as [|n]; cbn.
    + rewrite lookup_app_l by lia. done.
    + rewrite lookup_app_r by lia. rewrite <- IH. f_equal. lia.
Qed.

Lemma view_lookup (d1 d2 n : nat) flat (b i : nat) :
  0 < d1 → 0 < d2 → length flat = n * (d1 * d2) →
  ∃ v, view d1 d2 flat = Some v
       ∧ length v = n
       ∧ Forall (λ mat, length mat = d1 ∧ Forall (λ row, length row = d2) mat) v
       ∧ (b < n → i < d1 →
          ∃ mat row, v !! b = Some mat ∧ mat !! i = Some row
                     ∧ ∀ j, j < d2 → row !! j = flat !! ((b * d1 + i) * d2 + j)).
Proof.
  intros Hd1 Hd2 Hlen. unfold view.
  assert (Hdiv : length flat `div` (d1 * d2) = n).
  { rewrite Hlen. apply Nat.div_mul. lia. }
  rewrite decide_True; [| split; [lia | rewrite Hlen; apply Nat.Div0.mod_mul]].
  rewrite Hdiv. clear Hdiv. eexists. split; [reflexivity |].
  set (rows := reshape (replicate (n * d1) d2) flat).
  assert (Hrows : length rows = n * d1).
  { unfold rows. by rewrite length_reshape, length_replicate. }
  assert (Hrow : ∀ k, k < n * d1 → rows !! k = Some (take d2 (drop (k * d2) flat))).
  { intros k Hk. unfold rows. rewrite sublist_lookup_reshape by lia.
    apply sublist_lookup_Some. nia. }
  assert (Hmat : ∀ b', b' < n →
            reshape (replicate n d1) rows !! b' = Some (take d1 (drop (b' * d1) rows))).
  { intros b' Hb'. rewrite sublist_lookup_reshape by lia.
    apply sublist_lookup_Some. nia. }
  split_and!.
  - by rewrite length_reshape, length_replicate.
  - apply Forall_lookup. intros b' mat Hb'.
    assert (b' < n) as Hlt.
    { apply lookup_lt_Some in Hb'. by rewrite length_reshape, length_replicate in Hb'. }
    rewrite Hmat in Hb' by done. apply (inj Some) in Hb' as <-. split.
    + rewrite length_take, length_drop. nia.
    + apply Forall_take, Forall_drop. apply Forall_lookup. intros k row Hk.
      assert (k < n * d1) as Hklt by (apply lookup_lt_Some in Hk; lia).
      rewrite Hrow in Hk by done. apply (inj Some) in Hk as <-.
      rewrite length_take, length_drop. nia.
  - intros Hb Hi. eexists _, _. split_and!.
    + by apply Hmat.
    + rewrite lookup_take_lt by done. rewrite lookup_drop. apply Hrow. nia.
    + intros j Hj. rewrite lookup_take_lt by done. rewrite lookup_drop.
      f_equal.
Qed.

Lemma last_component_Some (pts : list (list (list A))) :
  Forall (Forall (λ pt, pt ≠ [])) pts →
  ∃ z, last_component pts = Some z
       ∧ Forall2 (Forall2 (λ pt d, last pt = Some d)) pts z.
Proof.
  intros Hpts. unfold last_component.
  assert (Hsome : is_Some (mapM (mapM last) pts)).
  { apply mapM_is_Some. eapply Forall_impl; [exact Hpts |].
    intros cam Hcam. cbn. apply mapM_is_Some.
    eapply Forall_impl; [exact Hcam |]. intros [|x pt] Hpt; [done |].
    cbn. rewrite last_cons. destruct (last pt); eauto. }
  destruct Hsome as [z Hz]. exists z. split; [done |].
  apply mapM_Some_1 in Hz. eapply Forall2_impl; [exact Hz |].
  intros cam row Hrow. by apply mapM_Some_1 in Hrow.
Qed.

Lemma last_component_shape (pts : list (list (list A))) (zs : list (list A)) :
  Forall2 (Forall2 (λ pt d, last pt = Some d)) pts zs →
  length zs = length pts
  ∧ length (concat zs) = length (concat pts)
  ∧ ∀ P, Forall (λ cam, length cam = P) pts → Forall (λ row, length row = P) zs.
Proof.
  intros Hz. split_and!.
  - symmetry. by eapply Forall2_length.
  - induction Hz as [|cam row pts' zs' Hrow _ IH]; cbn; [done |].
    rewrite !length_app, IH. f_equal. symmetry. by eapply Forall2_length.
  - intros P HP. induction Hz as [|cam row pts' zs' Hrow _ IH]; [done |].
    apply Forall_cons in HP as [Hcam HP]. constructor; [|by apply IH].
    rewrite <- Hcam. symmetry. by eapply Forall2_length.
Qed.

(** X17: for [N] cameras with [im_width * im_height] points each,
    [reproj_depths] is defined, has shape [(N, im_height, im_width)], and
    its entry [(n, h, w)] is the last component of point number
    [w * im_height + h] of camera [n]. *)
Theorem reproj_depths_index (im_width im_height N : nat) (reproj_points : list (list (list A))) :
  0 < im_width → 0 < im_height →
  length reproj_points = N →
  Forall (λ cam, length cam = im_width * im_height) reproj_points →
  Forall (Forall (λ pt, pt ≠ [])) reproj_points →
  ∃ depths : list (list (list A)),
    reproj_depths im_width im_height reproj_points = Some depths
    ∧ length depths = N
    ∧ Forall (λ img, length img = im_height
                     ∧ Forall (λ row, length row = im_width) img) depths
    ∧ ∀ n h w : nat, n < N → h < im_height → w < im_width →
        (depths !! n ≫= (λ img : list (list A), img !! h))
          ≫= (λ row : list A, row !! w)
        = (reproj_points !! n ≫= (λ cam : list (list A), cam !! (w * im_height + h)))
            ≫= last.
Proof.
  intros HW HH HN Hcams Hpts.
  destruct (last_component_Some reproj_points Hpts) as (z & Hz & Hlast).
  destruct (last_component_shape reproj_points z Hlast) as (Hzlen & _ & Hzrows).
  specialize (Hzrows _ Hcams).
  assert (Hflat : length (concat z) = N * (im_width * im_height)).
  { rewrite (length_concat_uniform (im_width * im_height)) by done. congruence. }
  destruct (view_lookup im_width im_height N (concat z) 0 0 HW HH Hflat)
    as (v & Hv & Hvlen & Hvshape & _).
  exists (transpose im_height <$> v). split_and!.
  - unfold reproj_depths. by rewrite Hz, Hv.
  - by rewrite length_fmap.
  - apply Forall_fmap. eapply Forall_impl; [exact Hvshape |].
    intros mat [Hmat Hrows]. cbn. split.
    + by apply length_transpose.
    + apply Forall_lookup. intros h col Hcol.
      assert (h < im_height) as Hh.
      { apply lookup_lt_Some in Hcol. by rewrite length_transpose in Hcol. }
      destruct (transpose_lookup im_height mat h Hrows Hh) as (col' & Hcol' & Hlen & _).
      congruence.
  - intros n h w Hn Hh Hw.
    destruct (view_lookup im_width im_height N (concat z) n w HW HH Hflat)
      as (v' & Hv' & _ & _ & Hlookup).
    rewrite Hv in Hv'. apply (inj Some) in Hv' as <-.
    destruct (Hlookup Hn Hw) as (mat & row & Hmat & Hrow & Hentries).
    assert (Hrows : Forall (λ row, length row = im_height) mat).
    { by eapply (Forall_lookup_1 _ _ _ _ Hvshape Hmat). }
    destruct (transpose_lookup im_height mat h Hrows Hh) as (col & Hcol & _ & Hcolw).
    rewrite list_lookup_fmap, Hmat. cbn. rewrite Hcol. cbn.
    rewrite Hcolw, Hrow. cbn. rewrite (Hentries h Hh).
    replace ((n * im_width + w) * im_height + h)
      with (n * (im_width * im_height) + (w * im_height + h)) by lia.
    rewrite (lookup_concat_uniform (im_width * im_height)) by (done || nia).
    destruct (reproj_points !! n) as [cam|] eqn:Hcam.
    + destruct (Forall2_lookup_l _ _ _ _ _ Hlast Hcam) as (zrow & Hzrow & Hzr).
      rewrite Hzrow. cbn.
      destruct (cam !! (w * im_height + h)) as [pt|] eqn:Hpt.
      * destruct (Forall2_lookup_l _ _ _ _ _ Hzr Hpt) as (d & Hd & Hlastd).
        rewrite Hd. by cbn.
      * cbn. apply lookup_ge_None. apply lookup_ge_None in Hpt.
        erewrite <- Forall2_length; [exact Hpt | exact Hzr].
    + apply lookup_ge_None in Hcam. lia.
Qed.

Lemma last_component_Some_inv (pts : list (list (list A))) (z : list (list A)) :
  last_component pts = Some z → Forall (Forall (λ pt, pt ≠ [])) pts.
Proof.
  intros Hz. apply mapM_Some_1 in Hz.
  apply Forall_lookup. intros n cam Hcam.
  destruct (Forall2_lookup_l _ _ _ _ _ Hz Hcam) as (row & _ & Hrow).
  apply mapM_Some_1 in Hrow.
  apply Forall_lookup. intros j pt Hpt ->.
  by destruct (Forall2_lookup_l _ _ _ _ _ Hrow Hpt) as (d & _ & Hd).
Qed.

(** X18: [reproj_depths] is defined exactly when every point has a
    component, the image size is not zero and the total number of points
    is a multiple of it; the number of images is then that total divided
    by the image size, whatever the number of cameras. *)
Theorem reproj_depths_raises (im_width im_height : nat) (reproj_points : list (list (list A))) :
  (is_Some (reproj_depths im_width im_height reproj_points)
   ↔ Forall (Forall (λ pt, pt ≠ [])) reproj_points
     ∧ im_width * im_height ≠ 0
     ∧ length (concat reproj_points) `mod` (im_width * im_height) = 0)
  ∧ ∀ depths, reproj_depths im_width im_height reproj_points = Some depths →
      length depths = length (concat reproj_points) `div` (im_width * im_height).
Proof.
  unfold reproj_depths. split.
  - split.
    + intros [depths Hd].
      destruct (last_component reproj_points) as [z|] eqn:Hz; [|done].
      pose proof (last_component_Some_inv _ _ Hz) as Hpts.
      destruct (last_component_Some _ Hpts) as (z' & Hz' & Hlast).
      destruct (last_component_shape _ _ Hlast) as (_ & Hlen & _).
      assert (z' = z) as -> by congruence.
      unfold view in Hd. rewrite Hlen in Hd.
      destruct (decide _) as [[? ?]|]; [done | done].
    + intros (Hpts & Hne & Hmod).
      destruct (last_component_Some _ Hpts) as (z & -> & Hlast).
      destruct (last_component_shape _ _ Hlast) as (_ & Hlen & _).
      unfold view. rewrite Hlen. rewrite decide_True by done. eauto.
  - intros depths Hd.
    destruct (last_component reproj_points) as [z|] eqn:Hz; [|done].
    pose proof (last_component_Some_inv _ _ Hz) as Hpts.
    destruct (last_component_Some _ Hpts) as (z' & Hz' & Hlast).
    destruct (last_component_shape _ _ Hlast) as (_ & Hlen & _).
    assert (z' = z) as -> by congruence.
    unfold view in Hd. rewrite Hlen in Hd.
    destruct (decide _); [|done]. apply (inj Some) in Hd as <-.
    by rewrite length_fmap, length_reshape, length_replicate.
Qed.
End Reproj.

Section DemoMore.
Import demo.

Lemma get_dones_shapes_witness :
  robot_api.get_dones (world (env true))
    = (([false; true], [false; false]), world (env true))
  ∧ task_api.get_dones (world (env true))
    = (([false; false], [true; false]), world (env true))
  ∧ is_Some (LeatherbackPushBlockEnv._get_dones (env true)).
Proof.
  assert (Hr : robot_api.get_dones (world (env true))
               = (([false; true], [false; false]), world (env true)))
    by reflexivity.
  assert (Ht : task_api.get_dones (world (env true))
               = (([false; false], [true; false]), world (env true)))
    by reflexivity.
  split_and!; [exact Hr | exact Ht |].
  destruct (get_dones_shapes LeatherbackPushBlockEnv._get_dones (or_intror eq_refl)
              (env true) _ _ _ _ _ _ Hr Ht) as [Hiff _].
  apply Hiff. split_and!; [cbn; lia | cbn; lia | left; reflexivity ..].
Defined.

Lemma step_hooks_leave_env_state_witness :
  ∃ s' : Env store,
    FloatingPlatformGoThroughPosesEnv._get_rewards (env true)
    = Some ((task_api.compute_rewards (world (env true))).1, s')
    ∧ calls s' = calls (env true) ++ [task_compute_rewards]
    ∧ world s' = (task_api.compute_rewards (world (env true))).2
    ∧ env_owned_unchanged (env true) s'.
Proof.
  destruct (step_hooks_leave_env_state FloatingPlatformGoThroughPosesEnv_class
              (or_introl eq_refl) (env true)) as (_ & _ & _ & Hrew & _).
  exact Hrew.
Defined.

Lemma reset_idx_full_length_witness :
  length [1%nat; 1%nat] = num_envs (env true)
  ∧ FloatingPlatformGoThroughPosesEnv._reset_idx (Some [1%nat; 1%nat]) (env true)
    = FloatingPlatformGoThroughPosesEnv._reset_idx None (env true).
Proof.
  split; [reflexivity |].
  destruct (reset_idx_full_length FloatingPlatformGoThroughPosesEnv._reset_idx
              (or_introl eq_refl) (env true)) as [_ Hfull].
  exact (Hfull [1%nat; 1%nat] eq_refl).
Defined.

Lemma leatherback_log_entry_witness :
  ∃ (s' : Env store) (log : gmap string float),
    LeatherbackPushBlockEnv._reset_idx (Some [0%nat]) (env true) = Some ((), s')
    ∧ extras s' !! "log" = Some log
    ∧ extras s' !! "other" = extras (env true) !! "other".
Proof.
  destruct (leatherback_log_entry (Some [0%nat]) (env true))
    as (resolved & s' & task_extras & robot_extras & log & w1 & w2
        & Hrun & _ & _ & _ & Hlog & _ & _ & Hother & _).
  exists s', log. split_and!; [exact Hrun | exact Hlog |].
  apply Hother. discriminate.
Defined.

Lemma debug_vis_guards_independent_witness :
  cfg_debug_vis (env true) = true
  ∧ ∃ s' : Env store,
      (LeatherbackPushBlockEnv._set_debug_vis_impl false ;;
       LeatherbackPushBlockEnv._debug_vis_callback) (env true) = Some ((), s')
      ∧ calls s' = calls (env true) ++ [task_update_task_visualization]
      ∧ world s' = task_api.update_task_visualization (world (env true)).
Proof.
  split; [reflexivity |].
  destruct (debug_vis_guards_independent
              LeatherbackPushBlockEnv._set_debug_vis_impl
              LeatherbackPushBlockEnv._debug_vis_callback
              (or_intror (conj eq_refl eq_refl)) (env true)) as (Hon & _ & _).
  exact (Hon eq_refl).
Defined.
End DemoMore.

Lemma thrusters_dof_name_spec_witness :
  (7 < 8)%nat
  ∧ floating_platform_cfg.thrusters_dof_name floating_platform_cfg.default !! 7%nat
    = Some ("thruster_" +:+ pretty 8%nat).
Proof.
  split; [lia |].
  destruct thrusters_dof_name_spec as (_ & _ & Hname & _).
  apply (Hname 7%nat). lia.
Defined.

Lemma shape_cfg_spawners_witness :
  navigation_shapes_cfg.func navigation_shapes_cfg.PinArrowCfg
  = navigation_shapes_cfg.func navigation_shapes_cfg.PinArrowCfg
  ∧ navigation_shapes_cfg.PinArrowCfg = navigation_shapes_cfg.PinArrowCfg.
Proof.
  split; [reflexivity |].
  destruct shape_cfg_spawners as (Hinj & _).
  apply Hinj. reflexivity.
Defined.

Lemma registrations_one_to_one_witness :
  tasks_cfg.lookup "GoToPose" tasks_cfg.TASK_CFG_FACTORY = Some tasks_cfg.GoToPoseCfg
  ∧ tasks_cfg.class_name tasks_cfg.GoToPoseCfg = "GoToPose" +:+ "Cfg".
Proof.
  split; [reflexivity |].
  destruct registrations_one_to_one as (_ & _ & _ & _ & Hname & _).
  apply Hname. reflexivity.
Defined.

Lemma rans_namespace_pairs_witness :
  ("PushBlock" ∈ tasks_cfg.registrations.*1)
  ∧ rans.exports ("PushBlock" +:+ "Cfg") = rans.exports ("PushBlock" +:+ "Task").
Proof.
  assert (Hin : "PushBlock" ∈ tasks_cfg.registrations.*1).
  { apply (bool_decide_unpack _). vm_compute. exact I. }
  split; [exact Hin |].
  destruct rans_namespace_pairs as (_ & Hpairs & _).
  apply (Hpairs "PushBlock" Hin).
Defined.

Section CameraDemo.
Import run_ray_caster_camera.

Lemma rep_output_entries_witness :
  NoDup ([("distance_to_image_plane", 1%nat); ("normals", 2%nat);
          ("distance_to_camera", 3%nat)].*1)
  ∧ dict_get "normals"
      (rep_output (F := nat)
         [("distance_to_image_plane", 1%nat); ("normals", 2%nat);
          ("distance_to_camera", 3%nat)]
         [("distance_to_image_plane", None); ("normals", Some 7%nat)] 5%nat)
    = Some (data_info 2%nat 7%nat)
  ∧ dict_get "distance_to_camera"
      (rep_output (F := nat)
         [("distance_to_image_plane", 1%nat); ("normals", 2%nat);
          ("distance_to_camera", 3%nat)]
         [("distance_to_image_plane", None); ("normals", Some 7%nat)] 5%nat)
    = None.
Proof.
  assert (Hnodup : NoDup ([("distance_to_image_plane", 1%nat); ("normals", 2%nat);
                           ("distance_to_camera", 3%nat)].*1)).
  { apply (bool_decide_unpack _). vm_compute. exact I. }
  split_and!; [exact Hnodup | |].
  - destruct (rep_output_entries (F := nat) _
                [("distance_to_image_plane", None); ("normals", Some 7%nat)] 5%nat
                Hnodup 1%nat "normals" 2%nat eq_refl) as (Hinfo & _ & _);
      [discriminate |].
    exact (Hinfo "normals" 7%nat eq_refl).
  - destruct (rep_output_entries (F := nat) _
                [("distance_to_image_plane", None); ("normals", Some 7%nat)] 5%nat
                Hnodup 2%nat "distance_to_camera" 3%nat eq_refl) as (_ & _ & Hnone);
      [discriminate |].
    exact (Hnone eq_refl).
Defined.

Lemma rep_output_trigger_witness :
  NoDup ([("trigger_outputs", 1%nat); ("normals", 2%nat)].*1)
  ∧ dict_get "trigger_outputs"
      (rep_output (I := nat)
         [("trigger_outputs", 1%nat); ("normals", 2%nat)]
         [("trigger_outputs", None); ("normals", None)] 5%nat)
    = Some (on_time 5%nat).
Proof.
  assert (Hnodup : NoDup ([("trigger_outputs", 1%nat); ("normals", 2%nat)].*1)).
  { apply (bool_decide_unpack _). vm_compute. exact I. }
  split; [exact Hnodup |].
  destruct (rep_output_trigger (I := nat) _
              [("trigger_outputs", None); ("normals", None)] 5%nat Hnodup)
    as (Hget & _).
  exact Hget.
Defined.

Lemma index_items_every_output_witness :
  NoDup ([("normals", [1%nat; 2%nat]); ("distance_to_camera", [3%nat])].*1)
  ∧ is_Some (index_items 0
               [("normals", [1%nat; 2%nat]); ("distance_to_camera", [3%nat])] []).
Proof.
  assert (Hnodup : NoDup ([("normals", [1%nat; 2%nat]);
                           ("distance_to_camera", [3%nat])].*1)).
  { apply (bool_decide_unpack _). vm_compute. exact I. }
  split; [exact Hnodup |].
  destruct (index_items_every_output 0 _ Hnodup) as [Hiff _].
  apply Hiff. repeat constructor.
Defined.

Lemma reproj_depths_index_witness :
  ∃ depths : list (list (list nat)),
    reproj_depths 3 2
      [[[0; 0; 1]; [0; 0; 2]; [0; 0; 3]; [0; 0; 4]; [0; 0; 5]; [0; 0; 6]]]%nat
    = Some depths
    ∧ (depths !! 0%nat ≫= (λ img : list (list nat), img !! 1%nat))
        ≫= (λ row : list nat, row !! 2%nat)
      = Some 6%nat.
Proof.
  destruct (reproj_depths_index 3 2 1
              [[[0; 0; 1]; [0; 0; 2]; [0; 0; 3]; [0; 0; 4]; [0; 0; 5]; [0; 0; 6]]]%nat)
    as (depths & Hrun & _ & _ & Hentries).
  - lia.
  - lia.
  - reflexivity.
  - repeat constructor.
  - repeat constructor; discriminate.
  - exists depths. split; [exact Hrun |].
    rewrite (Hentries 0 1 2)%nat by lia. reflexivity.
Defined.

Lemma reproj_depths_raises_witness :
  reproj_depths 3 2 [[[0; 0; 1]; [0; 0; 2]; [0; 0; 3]; [0; 0; 4]; [0; 0; 5]]]%nat = None.
Proof.
  destruct (reproj_depths_raises 3 2
              [[[0; 0; 1]; [0; 0; 2]; [0; 0; 3]; [0; 0; 4]; [0; 0; 5]]]%nat)
    as [Hiff _].
  apply eq_None_not_Some. intros Hsome. apply Hiff in Hsome as (_ & _ & Hmod).
  vm_compute in Hmod. discriminate.
Defined.
End CameraDemo.
